(** * pymatgen.io.abinitio.workflow: scheduler and convergence analysis

    A shallow embedding of the parts of [workflow.py] that carry the
    workflow scheduler ([check_status], [fetch_task_to_run], the CPU
    counters, [register], [IterativeWork.submit_tasks]), the convergence
    routines ([check_conv], [compute_hints]) and
    [WorkFlowResults.push_exceptions].

    Conventions.
    - Python numbers handed to the numeric routines are exact rationals
      ([Q]); the comparisons [<], [>] are the boolean tests [Qlt_bool].
      A result that needs the differences to be exact is stated for
      lists of integers, on which Python's [-] and [abs] do not round.
    - Python integers (indices, counters, status codes, CPU counts) are [Z].
    - A call that can raise returns a [result]: [Ok v] or [Raise e]. *)

From Stdlib Require Import ZArith QArith Qabs String List Bool Lia Lqa.
Import ListNotations.
Local Open Scope string_scope.
Local Open Scope list_scope.
Local Open Scope Z_scope.

(** ** Exceptions and the error monad *)

Inductive exn : Type :=
| IndexError                      (* sequence index out of range *)
| ZeroDivisionError               (* raised by the [/] operator itself *)
| ValueError (msg : string)       (* raised by an explicit [raise ValueError(...)] *)
| StopIteration
| AssertionError
| ExternalError (msg : string).   (* raised inside a collaborator outside this module *)

Inductive result (A : Type) : Type :=
| Ok (a : A)
| Raise (e : exn).
Arguments Ok {A} a.
Arguments Raise {A} e.

Definition bind {A B} (r : result A) (k : A -> result B) : result B :=
  match r with
  | Ok a => k a
  | Raise e => Raise e
  end.

Notation "x <- r ;; k" := (bind r (fun x => k))
  (at level 61, r at next level, right associativity).

(** [[f(x) for x in xs]] where [f] may raise: the first failure aborts. *)
Fixpoint mapM {A B} (f : A -> result B) (xs : list A) : result (list B) :=
  match xs with
  | [] => Ok []
  | x :: tl => y <- f x ;; ys <- mapM f tl ;; Ok (y :: ys)
  end.

(** ** Python sequence indexing *)

(** [l[i]]: a negative index counts from the end, anything outside
    [-len(l) .. len(l)-1] raises [IndexError]. *)
Definition py_getitem {A} (l : list A) (i : Z) : result A :=
  let n := Z.of_nat (length l) in
  let j := if i <? 0 then n + i else i in
  if (j <? 0) || (n <=? j) then Raise IndexError
  else match nth_error l (Z.to_nat j) with
       | Some x => Ok x
       | None => Raise IndexError
       end.

(** ** Comparisons and division on numbers *)

Definition Qlt_bool (x y : Q) : bool := negb (Qle_bool y x).

(** [x / y] with Python's check of the divisor. *)
Definition py_div (x y : Q) : result Q :=
  if Qeq_bool y 0 then Raise ZeroDivisionError else Ok (x / y)%Q.

(** ** check_conv *)

(** The loop
<<
    for i in range(numpts-1, -1, -1):
        if vdiff[i] > tol:
            break
>>
    [conv_loop vdiff tol n i] runs the iterations for the indices
    [n-1, ..., 0] and returns the value the variable [i] holds when the
    loop is left: the index of the [break], or the last value assigned
    when the range is used up, or the incoming [i] for an empty range. *)
Fixpoint conv_loop (vdiff : list Q) (tol : Q) (n : nat) (i : Z) : Z :=
  match n with
  | O => i
  | S k =>
      if Qlt_bool tol (nth k vdiff 0%Q) then Z.of_nat k
      else conv_loop vdiff tol k (Z.of_nat k)
  end.

Definition wrong_mode (mode : string) : string := ("Wrong mode " ++ mode)%string.

Definition check_conv (values : list Q) (tol : Q) (min_numpts : Z)
    (mode : string) (vinf : option Q) : result Z :=
  vinf <- match vinf with
          | None => py_getitem values (-1)
          | Some v => Ok v
          end ;;
  vdiff <- (if String.eqb mode "abs" then
              Ok (map (fun v => Qabs (v - vinf)) values)
            else if String.eqb mode "rel" then
              mapM (fun v => py_div (Qabs (v - vinf)) vinf) values
            else Raise (ValueError (wrong_mode mode))) ;;
  let numpts := Z.of_nat (length vdiff) in
  let i := -2 in
  i <- (if min_numpts <? numpts then
          d <- py_getitem vdiff (-2) ;;
          if Qlt_bool d tol then
            let i := conv_loop vdiff tol (length vdiff) i in
            Ok (if numpts - i - 1 <? min_numpts then -2 else i)
          else Ok i
        else Ok i) ;;
  Ok (i + 1).

(** The part of [check_conv] after the list [vdiff] is built, as a function
    of that list (used to state lemmas about [check_conv]). *)
Definition conv_index (vdiff : list Q) (tol : Q) (min_numpts : Z) : result Z :=
  let numpts := Z.of_nat (length vdiff) in
  i <- (if min_numpts <? numpts then
          d <- py_getitem vdiff (-2) ;;
          if Qlt_bool d tol then
            let i := conv_loop vdiff tol (length vdiff) (-2) in
            Ok (if numpts - i - 1 <? min_numpts then -2 else i)
          else Ok (-2)
        else Ok (-2)) ;;
  Ok (i + 1).

(** Decimal literals used in the examples. *)
Definition tol_1e_3 : Q := 1 # 1000.
Definition series_flat : list Q :=
  [10; 10; 10; 99999 # 10000; 999999 # 100000]%Q.
Definition series_oscillating : list Q := [1; 5; 1; 5; 1]%Q.

(** ** compute_hints *)

(** [all(x > y for x, y in zip(values, values[1:]))] *)
Definition strictly_decreasing (values : list Q) : bool :=
  forallb (fun xy => Qlt_bool (snd xy) (fst xy)) (combine values (tl values)).

Record Pseudo := mkPseudo { name : string; path : string }.

(** One accuracy entry of the returned dictionary:
    [{"ecut": ..., "aug_ratio": ...}]; [None] is Python's [None]. *)
Record Accuracy := mkAccuracy { ecut : option Q; aug_ratio : Z }.

(** The dictionary returned by [compute_hints], one field per key. *)
Record Hints := mkHints {
  exit : bool;
  etotal : list Q;
  ecut_list : list Q;
  aug_ratios : list Z;
  low : Accuracy;
  normal : Accuracy;
  high : Accuracy;
  pseudo_name : string;
  pseudo_path : string;
  atols_mev : Q * Q * Q;
  dojo_level : Z
}.

Section ComputeHints.

(** [Ha_to_eV] comes from [pymatgen.core.units]; its value is not part
    of this module. *)
Variable Ha_to_eV : Q.

(** [[a / (1000 * Ha_to_eV) for a in atols_mev]], unpacked into
    [(de_low, de_normal, de_high)]. *)
Definition tolerances (atols : Q * Q * Q) : result (Q * Q * Q) :=
  let '(a_low, a_normal, a_high) := atols in
  de_low <- py_div a_low (1000 * Ha_to_eV)%Q ;;
  de_normal <- py_div a_normal (1000 * Ha_to_eV)%Q ;;
  de_high <- py_div a_high (1000 * Ha_to_eV)%Q ;;
  Ok (de_low, de_normal, de_high).

(** The table of rows written to [stream] is output only and is not part
    of the returned dictionary; it is left out. *)
Definition compute_hints (ecut_list : list Q) (etotal : list Q)
    (atols_mev : Q * Q * Q) (pseudo : Pseudo) (min_numpts : Z) : result Hints :=
  des <- tolerances atols_mev ;;
  let '(de_low, de_normal, de_high) := des in
  etotal_inf <- py_getitem etotal (-1) ;;
  ihigh <- check_conv etotal de_high min_numpts "abs" None ;;
  inormal <- check_conv etotal de_normal 1 "abs" None ;;
  ilow <- check_conv etotal de_low 1 "abs" None ;;
  let exit := negb (ihigh =? -1) in
  ecuts <- (if exit then
              ecut_low <- py_getitem ecut_list ilow ;;
              ecut_normal <- py_getitem ecut_list inormal ;;
              ecut_high <- py_getitem ecut_list ihigh ;;
              Ok (Some ecut_low, Some ecut_normal, Some ecut_high)
            else Ok (None, None, None)) ;;
  let '(ecut_low, ecut_normal, ecut_high) := ecuts in
  Ok {| exit := negb (ihigh =? -1);
        etotal := etotal;
        ecut_list := ecut_list;
        aug_ratios := [1];
        low := {| ecut := ecut_low; aug_ratio := 1 |};
        normal := {| ecut := ecut_normal; aug_ratio := 1 |};
        high := {| ecut := ecut_high; aug_ratio := 1 |};
        pseudo_name := name pseudo;
        pseudo_path := path pseudo;
        atols_mev := atols_mev;
        dojo_level := 0 |}.

End ComputeHints.

(** ** WorkFlowResults *)

(** An object handed to [push_exceptions]: an exception instance (with
    its identity) or a plain message string. *)
Inductive PyExc : Type :=
| ExcObj (ident : nat) (msg : string)
| StrObj (s : string).

(** [str(exc)] *)
Definition str (exc : PyExc) : string :=
  match exc with
  | ExcObj _ msg => msg
  | StrObj s => s
  end.

(** The dictionary [WorkFlowResults]: the list stored under the reserved
    key ["_exceptions"], and the remaining items. *)
Record WorkFlowResults := mkResults {
  items : list (string * string);
  exceptions : list string
}.

(** [newstr not in self.exceptions] *)
Definition str_in (s : string) (l : list string) : bool :=
  existsb (String.eqb s) l.

Definition push_exception (r : WorkFlowResults) (exc : PyExc) : WorkFlowResults :=
  let newstr := str exc in
  if negb (str_in newstr (exceptions r))
  then {| items := items r; exceptions := exceptions r ++ [newstr] |}
  else r.

(** [push_exceptions] with its variadic arguments as a list: the loop over them. *)
Definition push_exceptions (r : WorkFlowResults) (excs : list PyExc) : WorkFlowResults :=
  fold_left push_exception excs r.

(** ** Tasks, links and the workflow *)

Record Product := mkProduct { ext : string; filepath : string }.

(** A [Link] holds a reference to its node, a task object.  Task objects
    live in the workflow's list [_tasks]; a reference is the position of
    the task in that list, so that a link always sees the node's current
    status. *)
Record Link := mkLink { node : nat; products : list Product }.

(** The attributes of a [Task] object the workflow reads or writes. *)
Record Task := mkTask {
  task_id : Z;
  status : Z;
  tot_ncpus : Z;
  links : list Link
}.

(** Modelled from the spec: [Task.set_status], called as
    [task.set_status(s)], is not in this module; it stores the new value
    in the task's mutable status field. *)
Definition set_status (task : Task) (s : Z) : Task :=
  {| task_id := task_id task; status := s;
     tot_ncpus := tot_ncpus task; links := links task |}.

(** [Link.status]: the status of the node, read from the live object. *)
Definition Link_status (store : list Task) (l : Link) : option Z :=
  option_map status (nth_error store (node l)).

(** Modelled from the spec: the property [Task.links_status] is not in
    this module; it is the list of the statuses of all upstream tasks the
    task depends on, each one the [Link.status] above. *)
Definition links_status (store : list Task) (task : Task) : list Z :=
  flat_map (fun l => match Link_status store l with
                     | Some s => [s]
                     | None => []
                     end) (links task).

(** Objects that can be handed to [register]. *)
Inductive PyObj : Type :=
| StrategyObj (descr : string)      (* an instance of [Strategy] *)
| AbinitInputObj (text : string)    (* a raw [AbinitInput] *)
| OtherObj (repr : string).         (* any other object *)

(** [isinstance(obj, Strategy)] *)
Definition is_Strategy (obj : PyObj) : bool :=
  match obj with
  | StrategyObj _ => true
  | _ => false
  end.

(** The object is a raw input, an [AbinitInput]. *)
Definition is_AbinitInput (obj : PyObj) : bool :=
  match obj with
  | AbinitInputObj _ => true
  | _ => false
  end.

(** Modelled from the spec: the exception classes of the task
    constructors are not in this module; the specification names the
    error of the job-specification collaborator [UnsupportedJobSpecError]. *)
Definition UnsupportedJobSpecError : exn := ExternalError "UnsupportedJobSpecError".

(** What the workflow uses of the [Task] class and of the other
    collaborators outside this module: the status constants, the status
    refresh against the external process, the scheduling predicates, the
    two task constructors, running a task to completion and the
    [exit_iteration] hook of an iterative workflow. *)
Class Collaborators := {
  S_INIT : Z;
  S_READY : Z;
  S_SUB : Z;
  S_RUN : Z;
  S_DONE : Z;
  S_OK : Z;
  (** [task.check_status()]: the status the task holds afterwards *)
  Task_check_status : list Task -> Task -> Z;
  (** [task.can_run] and [task.is_completed] *)
  can_run : list Task -> Task -> bool;
  is_completed : list Task -> Task -> bool;
  (** [task_factory(obj, ..., task_id=, links=)] and
      [AbinitTask.from_input(obj, ..., task_id=, links=)] *)
  task_factory : PyObj -> Z -> list Link -> result Task;
  AbinitTask_from_input : PyObj -> Z -> list Link -> result Task;
  (** [task.start(); task.wait()] *)
  Task_start_wait : Task -> result Task;
  (** [self.exit_iteration()["exit"]] *)
  exit_iteration : list Task -> result bool
}.

(** The state of a [Workflow]: the list [_tasks], the dictionary
    [_links_dict] and the records sent to the module's logger. *)
Record Workflow := mkWorkflow {
  _tasks : list Task;
  _links_dict : list (Z * list Link);
  log : list string
}.

(** In-place change of the object at position [i]. *)
Fixpoint update_at {A} (i : nat) (f : A -> A) (l : list A) : list A :=
  match l, i with
  | [], _ => []
  | x :: tl, O => f x :: tl
  | x :: tl, S j => x :: update_at j f tl
  end.

Section Scheduler.

Context {api : Collaborators}.

(** *** CPU counters *)

Definition ncpus_reserved (w : Workflow) : Z :=
  fold_left (fun ncpus task =>
               if status task =? S_SUB then ncpus + tot_ncpus task else ncpus)
            (_tasks w) 0.

Definition ncpus_allocated (w : Workflow) : Z :=
  fold_left (fun ncpus task =>
               if existsb (Z.eqb (status task)) [S_SUB; S_RUN]
               then ncpus + tot_ncpus task else ncpus)
            (_tasks w) 0.

Definition ncpus_inuse (w : Workflow) : Z :=
  fold_left (fun ncpus task =>
               if status task =? S_RUN then ncpus + tot_ncpus task else ncpus)
            (_tasks w) 0.

(** *** check_status *)

(** First loop, one iteration: [task.check_status()] on the task at
    position [i]. *)
Definition refresh_step (store : list Task) (i : nat) : list Task :=
  match nth_error store i with
  | Some task => update_at i (fun t => set_status t (Task_check_status store task)) store
  | None => store
  end.

(** Second loop, one iteration. *)
Definition promote_step (store : list Task) (i : nat) : list Task :=
  match nth_error store i with
  | Some task =>
      if status task <=? S_SUB then
        let all_ok := forallb (fun stat => stat =? S_OK) (links_status store task) in
        if all_ok then update_at i (fun t => set_status t S_READY) store
        else store
      else store
  | None => store
  end.

Definition refresh_all (store : list Task) : list Task :=
  fold_left refresh_step (seq 0 (length store)) store.

Definition promote_all (store : list Task) : list Task :=
  fold_left promote_step (seq 0 (length store)) store.

Definition check_status (w : Workflow) : Workflow :=
  {| _tasks := promote_all (refresh_all (_tasks w));
     _links_dict := _links_dict w;
     log := log w |}.

(** *** status *)

(** [min(status_list)] *)
Definition py_min (l : list Z) : result Z :=
  match l with
  | [] => Raise (ValueError "min() arg is an empty sequence")
  | x :: tl => Ok (fold_left Z.min tl x)
  end.

(** The two shapes of the value of [get_all_status]. *)
Inductive StatusReport : Type :=
| MinStatus (s : Z)
| StatusList (l : list Z).

Definition get_all_status (w : Workflow) (only_min : bool)
    : result StatusReport * Workflow :=
  let w := check_status w in
  let status_list := map status (_tasks w) in
  if only_min then (m <- py_min status_list ;; Ok (MinStatus m), w)
  else (Ok (StatusList status_list), w).

(** The property [Workflow.status]. *)
Definition Workflow_status (w : Workflow) : result StatusReport * Workflow :=
  get_all_status w true.

(** *** fetch_task_to_run *)

Definition deadlock_warning : string := "Possible deadlock in fetch_task_to_run!".

(** [Ok (Some task)] is [return task], [Ok None] is [return None]; the
    [print] of each task's status writes to the standard output only. *)
Definition fetch_task_to_run (w : Workflow) : result (option Task) * Workflow :=
  let w := check_status w in
  match find (can_run (_tasks w)) (_tasks w) with
  | Some task => (Ok (Some task), w)
  | None =>
      if forallb (is_completed (_tasks w)) (_tasks w)
      then (Raise StopIteration, w)
      else (Ok None,
            {| _tasks := _tasks w; _links_dict := _links_dict w;
               log := log w ++ [deadlock_warning] |})
  end.

(** *** register *)

(** [self._links_dict[task_id].extend(links)] on a [defaultdict(list)]. *)
Fixpoint links_dict_extend (d : list (Z * list Link)) (k : Z) (ls : list Link)
    : list (Z * list Link) :=
  match d with
  | [] => [(k, ls)]
  | (k', v) :: tl =>
      if k' =? k then (k', v ++ ls) :: tl
      else (k', v) :: links_dict_extend tl k ls
  end.

(** [register(obj, links)] with [manager] and [task_class] left at
    [None]; the value is the [Link] to the new task.  The working
    directory and the manager copy only feed the constructors. *)
Definition register (w : Workflow) (obj : PyObj) (links : list Link)
    : result Link * Workflow :=
  let task_id := Z.of_nat (length (_tasks w)) in
  let made := if is_Strategy obj
              then task_factory obj task_id links
              else AbinitTask_from_input obj task_id links in
  match made with
  | Raise e => (Raise e, w)
  | Ok task =>
      (Ok {| node := length (_tasks w); products := [] |},
       {| _tasks := _tasks w ++ [task];
          _links_dict := match links with
                         | [] => _links_dict w
                         | _ => links_dict_extend (_links_dict w) task_id links
                         end;
          log := log w |})
  end.

End Scheduler.

(** ** IterativeWork *)

(** The generator [strategy_generator] is the sequence of the objects it
    yields ([None] once it is used up) together with the number of items
    already taken from it. *)
Record IterativeWork := mkIterativeWork {
  work : Workflow;
  strategy_generator : nat -> option PyObj;
  taken : nat;
  max_niter : Z;
  niter : Z
}.

Definition with_work (iw : IterativeWork) (w : Workflow) : IterativeWork :=
  {| work := w; strategy_generator := strategy_generator iw;
     taken := taken iw; max_niter := max_niter iw; niter := niter iw |}.

Definition with_taken (iw : IterativeWork) (n : nat) : IterativeWork :=
  {| work := work iw; strategy_generator := strategy_generator iw;
     taken := n; max_niter := max_niter iw; niter := niter iw |}.

Definition with_niter (iw : IterativeWork) (n : Z) : IterativeWork :=
  {| work := work iw; strategy_generator := strategy_generator iw;
     taken := taken iw; max_niter := max_niter iw; niter := n |}.

Definition with_tasks (w : Workflow) (ts : list Task) : Workflow :=
  {| _tasks := ts; _links_dict := _links_dict w; log := log w |}.

(** How one pass through the body of [while True] ends. *)
Inductive LoopExit : Type :=
| Break
| Continue
| Propagate (e : exn).

Section Iterative.

Context {api : Collaborators}.

(** [next(self.strategy_generator)] *)
Definition generator_next (iw : IterativeWork) : result PyObj * IterativeWork :=
  match strategy_generator iw (taken iw) with
  | Some obj => (Ok obj, with_taken iw (S (taken iw)))
  | None => (Raise StopIteration, iw)
  end.

Definition next_task (iw : IterativeWork) : result Task * IterativeWork :=
  match generator_next iw with
  | (Raise e, iw) => (Raise e, iw)
  | (Ok next_strategy, iw) =>
      match register (work iw) next_strategy [] with
      | (Raise e, w) => (Raise e, with_work iw w)
      | (Ok _, w) =>
          let iw := with_work iw w in
          if Z.of_nat (length (_tasks w)) =? niter iw
          then (py_getitem (_tasks w) (-1), iw)
          else (Raise AssertionError, iw)
      end
  end.

(** [task.start(); task.wait()] on the task just registered, the last
    object of [_tasks]. *)
Definition start_and_wait (iw : IterativeWork) (task : Task)
    : result unit * IterativeWork :=
  match Task_start_wait task with
  | Raise e => (Raise e, iw)
  | Ok done =>
      let ts := _tasks (work iw) in
      (Ok tt, with_work iw (with_tasks (work iw)
                              (update_at (pred (length ts)) (fun _ => done) ts)))
  end.

(** One pass through the body of the [while True] loop. *)
Definition loop_body (iw : IterativeWork) : LoopExit * IterativeWork :=
  if (max_niter iw <? niter iw) && (0 <? max_niter iw) then (Break, iw)
  else
    match next_task iw with
    | (Raise StopIteration, iw) => (Break, iw)
    | (Raise e, iw) => (Propagate e, iw)
    | (Ok task, iw) =>
        match start_and_wait iw task with
        | (Raise e, iw) => (Propagate e, iw)
        | (Ok _, iw) =>
            match exit_iteration (_tasks (work iw)) with
            | Raise e => (Propagate e, iw)
            | Ok true => (Break, iw)
            | Ok false => (Continue, with_niter iw (niter iw + 1))
            end
        end
    end.

(** The loop, cut off after [fuel] passes: [None] when the passes are
    used up before the loop is left. *)
Fixpoint submit_loop (fuel : nat) (iw : IterativeWork)
    : option (result unit * IterativeWork) :=
  match fuel with
  | O => None
  | S fuel =>
      match loop_body iw with
      | (Break, iw) => Some (Ok tt, iw)
      | (Propagate e, iw) => Some (Raise e, iw)
      | (Continue, iw) => submit_loop fuel iw
      end
  end.

Definition submit_tasks (fuel : nat) (iw : IterativeWork)
    : option (result unit * IterativeWork) :=
  submit_loop fuel (with_niter iw 1).

End Iterative.

(** ** The convergence criterion in the words of the specification *)

(** [d[i] = |values[i] - ref|] with the default reference, the last value. *)
Definition deviations (values : list Q) : list Q :=
  map (fun v => Qabs (v - last values 0%Q)) values.

(** Index [i] qualifies: every [d[j]] for [j >= i] is [<= tol] and the
    number of trailing points [len(values) - i] is [>= minPoints]. *)
Definition qualifies (values : list Q) (tol : Q) (minPoints : Z) (i : nat) : Prop :=
  (i <= length values)%nat /\
  (forall j, (i <= j < length values)%nat -> (nth j (deviations values) 0%Q <= tol)%Q) /\
  minPoints <= Z.of_nat (length values) - Z.of_nat i.



(** ** Auxiliary definitions *)

(** The one-task view the second loop of [check_status] takes. *)
Definition is_ok {api : Collaborators} (task : Task) : bool := status task =? S_OK.

Definition all_ok {api : Collaborators} (store : list Task) (task : Task) : bool :=
  forallb (fun stat => stat =? S_OK) (links_status store task).

(** What the second loop does to one task, all statuses being read in
    [store]. *)
Definition promote {api : Collaborators} (store : list Task) (task : Task) : Task :=
  if (status task <=? S_SUB) && all_ok store task
  then set_status task S_READY else task.

(** What one task adds to a counter that counts the statuses in [sel],
    and the sum over the tasks. *)
Definition share (sel : list Z) (task : Task) : Z :=
  if existsb (Z.eqb (status task)) sel then tot_ncpus task else 0.

Definition total (sel : list Z) (ts : list Task) : Z :=
  fold_right (fun task acc => share sel task + acc) 0 ts.

(** The workflow left by a call that logged the deadlock warning. *)
Definition warned (w : Workflow) : Workflow :=
  {| _tasks := _tasks w; _links_dict := _links_dict w;
     log := log w ++ [deadlock_warning] |}.

(** The number of tasks of an iterative workflow, [len(self)]. *)
Definition ntasks (iw : IterativeWork) : nat := length (_tasks (work iw)).

(** Modelled from the spec: [AbinitTask.from_input] is not in this
    module.  The specification says of the job-specification collaborator
    that it is either a strategy object or a raw input object and that it
    "fails with UnsupportedJobSpecError otherwise": handed an object that
    is neither, the constructor raises that error. *)
Definition rejects_unsupported {api : Collaborators} : Prop :=
  forall (obj : PyObj) (task_id : Z) (links : list Link),
    is_Strategy obj = false -> is_AbinitInput obj = false ->
    AbinitTask_from_input obj task_id links = Raise UnsupportedJobSpecError.

(** ** Example data *)

(** Modelled from the spec: the status constants, in the order
    INIT < READY < SUB < RUN < DONE < OK of the specification; a task can
    run when it is READY, is completed from DONE on, the refresh keeps the
    status, [task_factory] builds a task in status INIT from a strategy
    and [AbinitTask.from_input] a generic one from a raw input, each
    failing with [UnsupportedJobSpecError] on any other object, a run
    ends in OK, and the iteration never asks to stop. *)
Definition example_api : Collaborators := {|
  S_INIT := 0; S_READY := 1; S_SUB := 2; S_RUN := 3; S_DONE := 4; S_OK := 5;
  Task_check_status := fun _ task => status task;
  can_run := fun _ task => status task =? 1;
  is_completed := fun _ task => 4 <=? status task;
  task_factory := fun obj id links =>
    if is_Strategy obj
    then Ok {| task_id := id; status := 0; tot_ncpus := 1; links := links |}
    else Raise UnsupportedJobSpecError;
  AbinitTask_from_input := fun obj id links =>
    if is_AbinitInput obj
    then Ok {| task_id := id; status := 0; tot_ncpus := 1; links := links |}
    else Raise UnsupportedJobSpecError;
  Task_start_wait := fun task => Ok (set_status task 5);
  exit_iteration := fun _ => Ok false
|}.

(** A workflow of three tasks: task 0 finished, task 1 submitted and
    waiting for task 0, task 2 running. *)
Definition tasks_example : list Task :=
  [ {| task_id := 0; status := 5; tot_ncpus := 4; links := [] |};
    {| task_id := 1; status := 2; tot_ncpus := 8;
       links := [{| node := 0; products := [{| ext := "DEN"; filepath := "task_0/out_DEN" |}] |}] |};
    {| task_id := 2; status := 3; tot_ncpus := 2; links := [] |} ].

Definition workflow_example : Workflow :=
  {| _tasks := tasks_example; _links_dict := []; log := [] |}.

(** A run of [compute_hints]: six total energies (Hartree), tolerances
    10, 1 and 0.1 meV. *)
Definition Ha_to_eV_example : Q := 272114 # 10000.
Definition etotal_example : list Q :=
  [- (1); - (11 # 10); - (11003812 # 10000000); - (11004192 # 10000000);
   - (1100431 # 1000000); - (11004312 # 10000000)]%Q.
Definition ecut_list_example : list Q := [10; 20; 30; 40; 50; 60]%Q.
Definition atols_mev_example : Q * Q * Q := (10, 1, 1 # 10)%Q.
Definition pseudo_example : Pseudo := {| name := "Si"; path := "Si.psp8" |}.


(** Two exception objects with the same message, and a result dictionary
    that already holds it. *)
Definition results_example : WorkFlowResults :=
  {| items := [("task_results", "{}")];
     exceptions := ["E(ecut) is not decreasing"] |}.

(** An iterative workflow over a generator that never ends, with room
    for three iterations. *)
Definition iterative_example : IterativeWork :=
  {| work := {| _tasks := []; _links_dict := []; log := [] |};
     strategy_generator := fun _ => Some (StrategyObj "scf");
     taken := 0;
     max_niter := 3;
     niter := 0 |}.

(** ** Further functions of the module *)

(** [all(x < y for x, y in zip(values, values[1:]))] *)
Definition strictly_increasing (values : list Q) : bool :=
  forallb (fun xy => Qlt_bool (fst xy) (snd xy)) (combine values (tl values)).

(** [all(x >= y for x, y in zip(values, values[1:]))] *)
Definition non_increasing (values : list Q) : bool :=
  forallb (fun xy => Qle_bool (snd xy) (fst xy)) (combine values (tl values)).

(** [all(x <= y for x, y in zip(values, values[1:]))] *)
Definition non_decreasing (values : list Q) : bool :=
  forallb (fun xy => Qle_bool (fst xy) (snd xy)) (combine values (tl values)).

(** The test of one adjacent pair [(v, vp)] in the loop of [monotonic]
    for mode [">"], [abs(vp - v) > atol and vp <= v], and for mode ["<"],
    [abs(vp - v) > atol and vp >= v]. *)
Definition breaks_increase (atol : Q) (p : Q * Q) : bool :=
  Qlt_bool atol (Qabs (snd p - fst p)) && Qle_bool (snd p) (fst p).

Definition breaks_decrease (atol : Q) (p : Q * Q) : bool :=
  Qlt_bool atol (Qabs (snd p - fst p)) && Qle_bool (fst p) (snd p).

(** [monotonic(values, mode, atol)]: the loops return [False] at the
    first adjacent pair that passes the test and the function returns
    [True] when none does. *)
Definition monotonic (values : list Q) (mode : string) (atol : Q) : result bool :=
  if Nat.eqb (length values) 1 then Ok true
  else if String.eqb mode ">" then
    Ok (forallb (fun p => negb (breaks_increase atol p)) (combine values (tl values)))
  else if String.eqb mode "<" then
    Ok (forallb (fun p => negb (breaks_decrease atol p)) (combine values (tl values)))
  else Raise (ValueError (wrong_mode mode)).

(** *** Workflow.all_done, status_counter, read_etotal *)

(** [all([task.status >= Task.S_DONE for task in self])] *)
Definition all_done {api : Collaborators} (w : Workflow) : bool :=
  forallb (fun task => S_DONE <=? status task) (_tasks w).

(** A [collections.Counter] keyed by strings: the keys in the order of
    their first use; a key that is absent counts 0. *)
Definition Counter : Type := list (string * Z).

(** [counter[key]] *)
Fixpoint counter_get (c : Counter) (key : string) : Z :=
  match c with
  | [] => 0
  | (k, n) :: tl => if String.eqb k key then n else counter_get tl key
  end.

(** [counter[key] += 1] *)
Fixpoint counter_incr (c : Counter) (key : string) : Counter :=
  match c with
  | [] => [(key, 1)]
  | (k, n) :: tl =>
      if String.eqb k key then (k, n + 1) :: tl
      else (k, n) :: counter_incr tl key
  end.

(** What [read_etotal] gives back: the list of energies, the workflow's
    own error, or an exception of the reader of the GSR file. *)
Inductive Etotal : Type :=
| EtotalList (etotal : list Q)
| WorkflowError (msg : string)
| ReaderRaised (e : exn).

Section Readers.

Context {api : Collaborators}.

(** [task.str_status], a property of the [Task] class. *)
Variable str_status : Task -> string.

(** Opening the GSR file of a task and reading ["etotal"] from it:
    [ETSF_Reader(task.odata_path_from_ext("GSR")).read_value("etotal")]. *)
Variable read_etotal_of : Task -> result Q.

Definition status_counter (w : Workflow) : Counter :=
  fold_left (fun counter task => counter_incr counter (str_status task))
            (_tasks w) [].

Definition read_etotal (w : Workflow) : Etotal :=
  if negb (all_done w)
  then WorkflowError "Some task is still in running/submitted state"
  else match mapM read_etotal_of (_tasks w) with
       | Ok etotal => EtotalList etotal
       | Raise e => ReaderRaised e
       end.

End Readers.

(** *** Links between registered tasks and the GW workflow *)

Section Links.

Context {api : Collaborators}.

(** [node.odata_path_from_ext(ext)] for the task at position [node]. *)
Variable odata_path_from_ext : nat -> string -> string.

(** [Link(node, exts)]: one product per extension, in the order given. *)
Definition Link_init (node : nat) (exts : list string) : Link :=
  {| node := node;
     products := map (fun ext => {| ext := ext;
                                    filepath := odata_path_from_ext node ext |}) exts |}.

(** [link.produces_exts(exts)] *)
Definition produces_exts (link : Link) (exts : list string) : Link :=
  Link_init (node link) exts.

(** [link.get_filepaths_and_exts()] *)
Definition get_filepaths_and_exts (link : Link) : list string * list string :=
  (map filepath (products link), map ext (products link)).

(** [GW_Workflow.__init__]: the four registrations, on the workflow [w]
    the base class has set up; an exception of a constructor leaves the
    method at once. *)
Definition GW_Workflow_init (w : Workflow)
    (scf_strategy nscf_strategy scr_strategy sigma_strategy : PyObj)
    : result unit * Workflow :=
  match register w scf_strategy [] with
  | (Raise e, w) => (Raise e, w)
  | (Ok scf_link, w) =>
      match register w nscf_strategy [produces_exts scf_link ["DEN"]] with
      | (Raise e, w) => (Raise e, w)
      | (Ok nscf_link, w) =>
          match register w scr_strategy [produces_exts nscf_link ["WFK"]] with
          | (Raise e, w) => (Raise e, w)
          | (Ok screen_link, w) =>
              match register w sigma_strategy
                      [produces_exts nscf_link ["WFK"];
                       produces_exts screen_link ["SCR"]] with
              | (Raise e, w) => (Raise e, w)
              | (Ok _, w) => (Ok tt, w)
              end
          end
      end
  end.

End Links.

(** The dependencies recorded in [_links_dict] are well formed: no key
    twice, every key the position of a task, no empty entry, and every
    link under a key points to a task before that position. *)
Definition links_dict_wf (w : Workflow) : Prop :=
  NoDup (map fst (_links_dict w)) /\
  forall k ls, In (k, ls) (_links_dict w) ->
    0 <= k < Z.of_nat (length (_tasks w)) /\ ls <> [] /\
    forall l, In l ls -> Z.of_nat (node l) < k.

(** *** WorkFlowResults as a dictionary: to_dict and from_dict *)

Inductive PyVal : Type :=
| VStr (s : string)
| VList (l : list string)
| VOther (repr : string).

(** A dictionary with string keys: the items in insertion order, no key
    twice. *)
Definition PyDict : Type := list (string * PyVal).

(** [d.get(key)] *)
Fixpoint dict_get (d : PyDict) (key : string) : option PyVal :=
  match d with
  | [] => None
  | (k, v) :: tl => if String.eqb k key then Some v else dict_get tl key
  end.

(** [d[key] = v] *)
Fixpoint dict_set (d : PyDict) (key : string) (v : PyVal) : PyDict :=
  match d with
  | [] => [(key, v)]
  | (k, v') :: tl =>
      if String.eqb k key then (k, v) :: tl
      else (k, v') :: dict_set tl key v
  end.

(** [WorkFlowResults.__init__] on the items of a dictionary. *)
Definition WorkFlowResults_init (d : PyDict) : PyDict :=
  match dict_get d "_exceptions" with
  | Some _ => d
  | None => dict_set d "_exceptions" (VList [])
  end.

(** The property [to_dict]; [module_name] and [class_name] are
    [self.__class__.__module__] and [self.__class__.__name__]. *)
Definition to_dict (module_name class_name : string) (self : PyDict) : PyDict :=
  dict_set (dict_set self "@module" (VStr module_name)) "@class" (VStr class_name).

(** [from_dict(d)] *)
Definition from_dict (d : PyDict) : PyDict :=
  WorkFlowResults_init
    (filter (fun kv => negb (existsb (String.eqb (fst kv)) ["@module"; "@class"])) d).

(** * Properties *)

(** ** Numbers and indexing *)

Lemma Qlt_bool_iff x y : Qlt_bool x y = true <-> (x < y)%Q.
Proof.
  unfold Qlt_bool. rewrite negb_true_iff. split; intro H.
  - apply Qnot_le_lt. intro Hle. apply Qle_bool_iff in Hle. congruence.
  - destruct (Qle_bool y x) eqn:E; [|reflexivity].
    apply Qle_bool_iff in E. exfalso. exact (Qlt_not_le _ _ H E).
Qed.

Lemma Qlt_bool_false_iff x y : Qlt_bool x y = false <-> (y <= x)%Q.
Proof.
  unfold Qlt_bool. rewrite negb_false_iff. apply Qle_bool_iff.
Qed.

Lemma nth_last {A} (l : list A) (d : A) :
  nth (length l - 1) l d = last l d.
Proof.
  induction l as [|x tl IH]; [reflexivity|].
  destruct tl as [|y tl']; [reflexivity|].
  simpl in *. rewrite Nat.sub_0_r in IH. exact IH.
Qed.

Lemma py_getitem_nonneg {A} (l : list A) (d : A) (j : nat) :
  (j < length l)%nat -> py_getitem l (Z.of_nat j) = Ok (nth j l d).
Proof.
  intro Hj. unfold py_getitem.
  destruct (Z.of_nat j <? 0) eqn:E1; [apply Z.ltb_lt in E1; lia|].
  rewrite E1. simpl.
  destruct (Z.of_nat (length l) <=? Z.of_nat j) eqn:E2; [apply Z.leb_le in E2; lia|].
  rewrite Nat2Z.id.
  destruct (nth_error l j) eqn:E3.
  - f_equal. symmetry. apply nth_error_nth. exact E3.
  - apply nth_error_None in E3. lia.
Qed.

Lemma py_getitem_from_end {A} (l : list A) (d : A) (k : nat) :
  (1 <= k <= length l)%nat ->
  py_getitem l (- Z.of_nat k) = Ok (nth (length l - k) l d).
Proof.
  intro Hk. unfold py_getitem.
  destruct (- Z.of_nat k <? 0) eqn:E1; [|apply Z.ltb_ge in E1; lia].
  destruct (Z.of_nat (length l) + - Z.of_nat k <? 0) eqn:E2;
    [apply Z.ltb_lt in E2; lia|].
  destruct (Z.of_nat (length l) <=? Z.of_nat (length l) + - Z.of_nat k) eqn:E3;
    [apply Z.leb_le in E3; lia|].
  simpl.
  replace (Z.to_nat (Z.of_nat (length l) + - Z.of_nat k)) with (length l - k)%nat by lia.
  destruct (nth_error l (length l - k)) eqn:E4.
  - f_equal. symmetry. apply nth_error_nth. exact E4.
  - apply nth_error_None in E4. lia.
Qed.

Lemma py_getitem_short {A} (l : list A) (k : nat) :
  (length l < k)%nat -> py_getitem l (- Z.of_nat k) = Raise IndexError.
Proof.
  intro Hk. unfold py_getitem.
  destruct (- Z.of_nat k <? 0) eqn:E1; [|apply Z.ltb_ge in E1; lia].
  destruct (Z.of_nat (length l) + - Z.of_nat k <? 0) eqn:E2;
    [reflexivity|apply Z.ltb_ge in E2; lia].
Qed.

Lemma py_getitem_last {A} (l : list A) (d : A) :
  l <> [] -> py_getitem l (-1) = Ok (last l d).
Proof.
  intro Hne. rewrite <- nth_last. apply (py_getitem_from_end l d 1).
  destruct l; [congruence|simpl; lia].
Qed.

Lemma py_getitem_second_to_last {A} (l : list A) (d : A) :
  (2 <= length l)%nat -> py_getitem l (-2) = Ok (nth (length l - 2) l d).
Proof. intro H. apply (py_getitem_from_end l d 2). lia. Qed.

Lemma py_getitem_second_to_last_short {A} (l : list A) :
  (length l < 2)%nat -> py_getitem l (-2) = Raise IndexError.
Proof. intro H. exact (py_getitem_short l 2 H). Qed.

(** ** The loop of check_conv *)

(** When the range is not empty the loop leaves [i] at an index [r] of
    the list; no point above [r] exceeds [tol]; and either the loop broke
    at [r] (the point [r] exceeds [tol]) or it ran to the end and [r] is
    0 with point 0 not exceeding [tol]. *)
Lemma conv_loop_spec (vdiff : list Q) (tol : Q) (n : nat) (i0 : Z) :
  (0 < n)%nat ->
  exists r : nat,
    conv_loop vdiff tol n i0 = Z.of_nat r /\ (r < n)%nat /\
    (forall j, (r < j < n)%nat -> Qlt_bool tol (nth j vdiff 0%Q) = false) /\
    (Qlt_bool tol (nth r vdiff 0%Q) = true \/
     r = 0%nat /\ Qlt_bool tol (nth 0 vdiff 0%Q) = false).
Proof.
  revert i0. induction n as [|k IH]; intros i0 Hn; [lia|].
  simpl. destruct (Qlt_bool tol (nth k vdiff 0%Q)) eqn:E.
  - exists k. repeat split; try lia. left. exact E.
  - destruct k as [|k'].
    + exists 0%nat. simpl. repeat split; try lia. right. split; [reflexivity|exact E].
    + destruct (IH (Z.of_nat (S k'))) as (r & Hr & Hlt & Hab & Hat); [lia|].
      exists r. repeat split; try lia; try assumption.
      intros j Hj. destruct (Nat.eq_dec j (S k')) as [->|Hne]; [exact E|].
      apply Hab. lia.
Qed.

(** A larger tolerance never moves the loop's final index to the right. *)
Lemma conv_loop_antitone (vdiff : list Q) (tol1 tol2 : Q) (n : nat) (i0 : Z) :
  (0 < n)%nat -> (tol1 <= tol2)%Q ->
  conv_loop vdiff tol2 n i0 <= conv_loop vdiff tol1 n i0.
Proof.
  intros Hn Hle.
  destruct (conv_loop_spec vdiff tol1 n i0 Hn) as (r1 & E1 & L1 & A1 & B1).
  destruct (conv_loop_spec vdiff tol2 n i0 Hn) as (r2 & E2 & L2 & A2 & B2).
  rewrite E1, E2.
  destruct (Nat.le_gt_cases r2 r1) as [H|H]; [lia|]. exfalso.
  destruct B2 as [B2|[B2 _]]; [|lia].
  apply Qlt_bool_iff in B2.
  specialize (A1 r2 (conj H L2)). apply Qlt_bool_false_iff in A1.
  apply (Qlt_irrefl tol2).
  eapply Qlt_le_trans; [exact B2|]. eapply Qle_trans; [exact A1|exact Hle].
Qed.

(** ** check_conv *)

Lemma check_conv_abs_default (values : list Q) (tol : Q) (min_numpts : Z) :
  values <> [] ->
  check_conv values tol min_numpts "abs" None
  = conv_index (deviations values) tol min_numpts.
Proof.
  intro Hne. unfold check_conv.
  rewrite (py_getitem_last values 0%Q Hne). reflexivity.
Qed.

Lemma check_conv_abs_explicit (values : list Q) (tol : Q) (min_numpts : Z) (v : Q) :
  check_conv values tol min_numpts "abs" (Some v)
  = conv_index (map (fun x => Qabs (x - v)) values) tol min_numpts.
Proof. reflexivity. Qed.

Lemma conv_index_values (vdiff : list Q) (tol : Q) (min_numpts : Z) (r : Z) :
  conv_index vdiff tol min_numpts = Ok r ->
  r = -1 \/ 1 <= r <= Z.of_nat (length vdiff).
Proof.
  unfold conv_index.
  destruct (min_numpts <? Z.of_nat (length vdiff)); simpl;
    [|intro H; injection H as <-; left; reflexivity].
  destruct (Nat.lt_ge_cases (length vdiff) 2) as [Hs|Hl].
  - rewrite (py_getitem_second_to_last_short vdiff Hs). simpl. discriminate.
  - rewrite (py_getitem_second_to_last vdiff 0%Q Hl). simpl.
    destruct (Qlt_bool _ tol); simpl;
      [|intro H; injection H as <-; left; reflexivity].
    destruct (conv_loop_spec vdiff tol (length vdiff) (-2)) as (k & -> & Hk & _); [lia|].
    destruct (_ <? min_numpts); intro H; injection H as <-; [left; lia|right; lia].
Qed.

(** Whatever the mode and the reference, [check_conv] never returns
    index 0: its values are -1 and the indices from 1 on. *)
Lemma check_conv_never_zero values tol min_numpts mode vinf :
  check_conv values tol min_numpts mode vinf <> Ok 0.
Proof.
  unfold check_conv. intro H.
  destruct (match vinf with None => py_getitem values (-1) | Some v => Ok v end)
    as [v|e]; simpl in H; [|discriminate].
  destruct (if String.eqb mode "abs" then _ else _) as [vdiff|e];
    simpl in H; [|discriminate].
  destruct (conv_index_values vdiff tol min_numpts 0 H); lia.
Qed.

Lemma nth_deviations (values : list Q) (j : nat) :
  (j < length values)%nat ->
  nth j (deviations values) 0%Q = Qabs (nth j values 0%Q - last values 0%Q).
Proof.
  intro Hj. unfold deviations.
  set (f := fun v => Qabs (v - last values 0%Q)).
  rewrite (nth_indep (map f values) 0%Q (f 0%Q)) by (rewrite length_map; exact Hj).
  rewrite map_nth. reflexivity.
Qed.

Lemma deviation_last (values : list Q) :
  values <> [] ->
  (nth (length values - 1) (deviations values) 0 == 0)%Q.
Proof.
  intro Hne. rewrite nth_deviations by (destruct values; [congruence|simpl; lia]).
  rewrite nth_last.
  rewrite (Qabs_wd (last values 0 - last values 0)%Q 0%Q); [reflexivity|ring].
Qed.

Lemma deviation_nonneg (values : list Q) (j : nat) :
  (0 <= nth j (deviations values) 0)%Q.
Proof.
  destruct (Nat.lt_ge_cases j (length values)) as [Hj|Hj].
  - rewrite nth_deviations by exact Hj. apply Qabs_nonneg.
  - rewrite nth_overflow by (unfold deviations; rewrite length_map; exact Hj).
    apply Qle_refl.
Qed.


(** An index other than -1 returned with the default reference is the
    leftmost qualifying index among the indices from 1 on. *)
Lemma check_conv_leftmost_from_1 (values : list Q) (tol : Q) (min_numpts r : Z) :
  values <> [] ->
  check_conv values tol min_numpts "abs" None = Ok r -> r <> -1 ->
  exists k : nat,
    r = Z.of_nat k /\ (1 <= k)%nat /\ qualifies values tol min_numpts k /\
    forall k', (1 <= k')%nat -> qualifies values tol min_numpts k' -> (k <= k')%nat.
Proof.
  intros Hne H Hr.
  rewrite (check_conv_abs_default values tol min_numpts Hne) in H.
  assert (Hlen : length (deviations values) = length values)
    by (unfold deviations; apply length_map).
  unfold conv_index in H. rewrite Hlen in H.
  destruct (min_numpts <? Z.of_nat (length values)); simpl in H;
    [|injection H as <-; lia].
  destruct (py_getitem (deviations values) (-2)) as [d|e]; simpl in H; [|discriminate].
  destruct (Qlt_bool d tol); simpl in H; [|injection H as <-; lia].
  assert (Hpos : (0 < length values)%nat) by (destruct values; [congruence|simpl; lia]).
  destruct (conv_loop_spec (deviations values) tol (length values) (-2) Hpos)
    as (r0 & E & Hlt & Hab & Hat).
  rewrite E in H.
  destruct (Z.of_nat (length values) - Z.of_nat r0 - 1 <? min_numpts) eqn:Ec;
    injection H as <-; [lia|]. apply Z.ltb_ge in Ec.
  exists (S r0). split; [lia|]. split; [lia|]. split.
  - split; [lia|]. split; [|lia].
    intros j Hj. apply Qlt_bool_false_iff. apply Hab. lia.
  - intros k' Hk' (_ & Hall & _).
    destruct (Nat.le_gt_cases (S r0) k') as [Hle|Hgt]; [exact Hle|]. exfalso.
    destruct Hat as [Hat|[-> _]]; [|lia].
    apply Qlt_bool_iff in Hat.
    assert (Hle : (nth r0 (deviations values) 0 <= tol)%Q) by (apply Hall; lia).
    exact (Qlt_irrefl _ (Qlt_le_trans _ _ _ Hat Hle)).
Qed.

(** Conversely, when the second-to-last point is within [tol] and the
    leftmost qualifying index [k] is at least 1 (the point before it
    exceeds [tol]), [check_conv] returns [k]. *)
Lemma check_conv_returns_leftmost (values : list Q) (tol : Q) (min_numpts : Z)
    (k : nat) :
  (2 <= length values)%nat ->
  (nth (length values - 2) (deviations values) 0%Q < tol)%Q ->
  (1 <= k)%nat -> qualifies values tol min_numpts k ->
  (tol < nth (k - 1) (deviations values) 0%Q)%Q ->
  check_conv values tol min_numpts "abs" None = Ok (Z.of_nat k).
Proof.
  intros Hn Hd2 Hk (Hkn & Hall & Hcount) Hprev.
  assert (Hne : values <> []) by (destruct values; [simpl in Hn; lia|congruence]).
  assert (Hlen : length (deviations values) = length values)
    by (unfold deviations; apply length_map).
  rewrite (check_conv_abs_default values tol min_numpts Hne).
  unfold conv_index. rewrite Hlen.
  destruct (min_numpts <? Z.of_nat (length values)) eqn:E1;
    [|apply Z.ltb_ge in E1; lia].
  rewrite (py_getitem_second_to_last (deviations values) 0%Q) by lia.
  rewrite Hlen. cbn [bind].
  apply Qlt_bool_iff in Hd2. rewrite Hd2.
  destruct (conv_loop_spec (deviations values) tol (length values) (-2))
    as (r & Er & Hr & Hab & Hat); [lia|].
  assert (r = (k - 1)%nat) as ->.
  { destruct (Nat.lt_trichotomy r (k - 1)) as [Hlt|[Heq|Hgt]]; [|exact Heq|]; exfalso.
    - assert (Hin : (k - 1 < length values)%nat).
      { destruct (Nat.lt_ge_cases (k - 1) (length values)) as [H|H]; [exact H|].
        rewrite nth_overflow in Hprev by (rewrite Hlen; exact H).
        apply Qlt_bool_iff in Hd2.
        exfalso. apply (Qlt_irrefl tol).
        eapply Qlt_trans; [exact Hprev|].
        eapply Qle_lt_trans; [apply deviation_nonneg|exact Hd2]. }
      specialize (Hab (k - 1)%nat (conj Hlt Hin)).
      apply Qlt_bool_iff in Hprev. congruence.
    - destruct Hat as [Hat|[-> _]]; [|lia].
      apply Qlt_bool_iff in Hat.
      assert (Hle : (nth r (deviations values) 0 <= tol)%Q) by (apply Hall; lia).
      exact (Qlt_irrefl _ (Qlt_le_trans _ _ _ Hat Hle)). }
  rewrite Er.
  destruct (Z.of_nat (length values) - Z.of_nat (k - 1) - 1 <? min_numpts) eqn:E2;
    [apply Z.ltb_lt in E2; lia|].
  cbn [bind]. apply f_equal. lia.
Qed.

(** When every point is within [tol] of the last value (the
    second-to-last one strictly) and there are more than [min_numpts]
    points, index 0 qualifies, and [check_conv] returns 1. *)
Lemma check_conv_all_within (values : list Q) (tol : Q) (min_numpts : Z) :
  (2 <= length values)%nat -> min_numpts < Z.of_nat (length values) ->
  (nth (length values - 2) (deviations values) 0%Q < tol)%Q ->
  (forall j, (j < length values)%nat -> (nth j (deviations values) 0%Q <= tol)%Q) ->
  check_conv values tol min_numpts "abs" None = Ok 1.
Proof.
  intros Hn Hm Hd2 Hall.
  assert (Hne : values <> []) by (destruct values; [simpl in Hn; lia|congruence]).
  assert (Hlen : length (deviations values) = length values)
    by (unfold deviations; apply length_map).
  rewrite (check_conv_abs_default values tol min_numpts Hne).
  unfold conv_index. rewrite Hlen.
  destruct (min_numpts <? Z.of_nat (length values)) eqn:E1;
    [|apply Z.ltb_ge in E1; lia].
  rewrite (py_getitem_second_to_last (deviations values) 0%Q) by lia.
  rewrite Hlen. cbn [bind].
  apply Qlt_bool_iff in Hd2. rewrite Hd2.
  destruct (conv_loop_spec (deviations values) tol (length values) (-2))
    as (r & Er & Hr & _ & Hat); [lia|].
  assert (r = 0%nat) as ->.
  { destruct Hat as [Hat|[-> _]]; [|reflexivity]. exfalso.
    apply Qlt_bool_iff in Hat. specialize (Hall r Hr).
    exact (Qlt_irrefl _ (Qlt_le_trans _ _ _ Hat Hall)). }
  rewrite Er. simpl Z.of_nat.
  destruct (Z.of_nat (length values) - 0 - 1 <? min_numpts) eqn:E2;
    [apply Z.ltb_lt in E2; lia|reflexivity].
Qed.

(** C1 (defect in the code).  On the series [10, 10, 10, 9.9999, 9.99999]
    with [tol = 1e-3] and [min_numpts = 1] every point deviates from the
    last value by no more than the tolerance, the second-to-last one by
    less, so index 0 qualifies and is the leftmost qualifying index; the
    loop of [check_conv] runs to the end without a [break], leaves its
    variable at 0 and [check_conv] returns 1.  The oscillating series
    [1, 5, 1, 5, 1] gives -1. *)
Theorem check_conv_flat_series_returns_1 :
  check_conv series_flat tol_1e_3 1 "abs" None = Ok 1 /\
  qualifies series_flat tol_1e_3 1 0 /\
  (nth 3 (deviations series_flat) 0 < tol_1e_3)%Q /\
  check_conv series_oscillating tol_1e_3 1 "abs" None = Ok (-1).
Proof.
  split; [vm_compute; reflexivity|]. split.
  - split; [simpl; lia|]. split; [|simpl; lia].
    intros j Hj. simpl in Hj.
    do 5 (destruct j as [|j]; [apply Qle_bool_iff; vm_compute; reflexivity|]).
    lia.
  - split; [apply Qlt_bool_iff; vm_compute; reflexivity|vm_compute; reflexivity].
Qed.

(** C2, as stated, fails: in relative mode with the reference 0 the
    division is not guarded.  On a non-empty list the [/] operator raises
    ZeroDivisionError (explicit reference, and default reference with last
    value 0); on the empty list no division is evaluated and the index -1
    is returned. *)
Lemma check_conv_rel_zero_unguarded :
  check_conv [1%Q] tol_1e_3 1 "rel" (Some 0%Q) = Raise ZeroDivisionError /\
  check_conv [1%Q; 0%Q] tol_1e_3 1 "rel" None = Raise ZeroDivisionError /\
  check_conv [] tol_1e_3 1 "rel" (Some 0%Q) = Ok (-1).
Proof. repeat split; vm_compute; reflexivity. Qed.

(** C2 (amended).  In relative mode, on a non-empty list whose reference
    (the explicit [vinf], or by default the last value) is zero,
    [check_conv] raises the ZeroDivisionError of the division itself and
    returns no index, for every tolerance and every [min_numpts]; on the
    empty list with an explicit reference it returns -1 when
    [min_numpts >= 0]. *)
Theorem check_conv_rel_zero_reference
    (values : list Q) (tol : Q) (min_numpts : Z) (vinf : option Q) :
  (values <> [] ->
   (match vinf with Some v => v | None => last values 0%Q end == 0)%Q ->
   check_conv values tol min_numpts "rel" vinf = Raise ZeroDivisionError) /\
  (0 <= min_numpts ->
   forall v, check_conv [] tol min_numpts "rel" (Some v) = Ok (-1)).
Proof.
  split.
  - intros Hne Hz. unfold check_conv.
    assert (Hv : match vinf with
                 | None => py_getitem values (-1)
                 | Some v => Ok v
                 end = Ok (match vinf with Some v => v | None => last values 0%Q end)).
    { destruct vinf; [reflexivity|apply py_getitem_last; exact Hne]. }
    rewrite Hv. clear Hv.
    set (ref := match vinf with Some v => v | None => last values 0%Q end) in *.
    clearbody ref. apply Qeq_bool_iff in Hz.
    destruct values as [|x tl]; [congruence|].
    simpl. unfold py_div at 1. rewrite Hz. reflexivity.
  - intros Hm v. unfold check_conv. simpl.
    destruct (min_numpts <? 0) eqn:E; [apply Z.ltb_lt in E; lia|reflexivity].
Qed.

Lemma check_conv_rel_zero_reference_witness :
  check_conv [1%Q] tol_1e_3 1 "rel" (Some 0%Q) = Raise ZeroDivisionError /\
  check_conv [] tol_1e_3 1 "rel" (Some 0%Q) = Ok (-1).
Proof.
  split.
  - apply (proj1 (check_conv_rel_zero_reference [1%Q] tol_1e_3 1 (Some 0%Q))).
    + discriminate.
    + reflexivity.
  - apply (proj2 (check_conv_rel_zero_reference [] tol_1e_3 1 None)). lia.
Defined.

(** ** compute_hints *)

Lemma py_div_pos (x y : Q) : (0 < y)%Q -> py_div x y = Ok (x / y)%Q.
Proof.
  intro Hy. unfold py_div.
  destruct (Qeq_bool y 0) eqn:E; [|reflexivity].
  apply Qeq_bool_iff in E. rewrite E in Hy. exfalso. exact (Qlt_irrefl _ Hy).
Qed.

Lemma scale_pos (Ha_to_eV : Q) : (0 < Ha_to_eV)%Q -> (0 < 1000 * Ha_to_eV)%Q.
Proof.
  intro H. rewrite <- (Qmult_0_r 1000). apply Qmult_lt_l; [reflexivity|exact H].
Qed.

Lemma tolerances_pos (Ha_to_eV a_low a_normal a_high : Q) :
  (0 < Ha_to_eV)%Q ->
  tolerances Ha_to_eV (a_low, a_normal, a_high)
  = Ok ((a_low / (1000 * Ha_to_eV))%Q,
        (a_normal / (1000 * Ha_to_eV))%Q,
        (a_high / (1000 * Ha_to_eV))%Q).
Proof.
  intro H. unfold tolerances.
  rewrite !py_div_pos by (apply scale_pos; exact H). reflexivity.
Qed.

Lemma Qdiv_le_compat (x y c : Q) : (0 < c)%Q -> (x <= y)%Q -> (x / c <= y / c)%Q.
Proof.
  intros Hc Hxy. unfold Qdiv. apply Qmult_le_compat_r; [exact Hxy|].
  apply Qlt_le_weak. apply Qinv_lt_0_compat. exact Hc.
Qed.







(** ** WorkFlowResults.push_exceptions *)

Lemma str_in_iff (s : string) (l : list string) : str_in s l = true <-> In s l.
Proof.
  unfold str_in. rewrite existsb_exists. split.
  - intros (x & Hx & E). apply String.eqb_eq in E. subst x. exact Hx.
  - intro H. exists s. split; [exact H|apply String.eqb_refl].
Qed.

Lemma push_exception_known (r : WorkFlowResults) (e : PyExc) :
  In (str e) (exceptions r) -> push_exception r e = r.
Proof.
  intro H. unfold push_exception.
  apply str_in_iff in H. rewrite H. reflexivity.
Qed.

Lemma push_exception_new (r : WorkFlowResults) (e : PyExc) :
  ~ In (str e) (exceptions r) ->
  push_exception r e = {| items := items r; exceptions := exceptions r ++ [str e] |}.
Proof.
  intro H. unfold push_exception.
  destruct (str_in (str e) (exceptions r)) eqn:E; [|reflexivity].
  apply str_in_iff in E. contradiction.
Qed.

Lemma push_exception_records (r : WorkFlowResults) (e : PyExc) :
  In (str e) (exceptions (push_exception r e)).
Proof.
  destruct (in_dec string_dec (str e) (exceptions r)) as [H|H].
  - rewrite push_exception_known; assumption.
  - rewrite push_exception_new by assumption. simpl.
    apply in_or_app. right. left. reflexivity.
Qed.

Lemma push_exceptions_fresh (es : list PyExc) : forall r : WorkFlowResults,
  NoDup (map str es) ->
  (forall e, In e es -> ~ In (str e) (exceptions r)) ->
  exceptions (push_exceptions r es) = exceptions r ++ map str es.
Proof.
  induction es as [|e tl IH]; intros r Hnd Hfresh.
  - simpl. symmetry. apply app_nil_r.
  - simpl in Hnd. inversion Hnd as [|x l Hnotin Hnd' Heq]; subst.
    unfold push_exceptions. simpl fold_left.
    rewrite push_exception_new by (apply Hfresh; left; reflexivity).
    change (fold_left push_exception tl ?x) with (push_exceptions x tl).
    rewrite IH.
    + simpl. rewrite <- app_assoc. reflexivity.
    + exact Hnd'.
    + intros e' He' Hin. simpl in Hin. apply in_app_or in Hin.
      destruct Hin as [Hin|[Hin|[]]].
      * exact (Hfresh e' (or_intror He') Hin).
      * apply Hnotin. rewrite Hin. apply in_map. exact He'.
Qed.

(** C9.  Pushing an exception whose string is already in the list of
    exceptions leaves the results unchanged; so two objects with the same
    string, pushed one after the other, leave what the first alone
    leaves, whatever their identity; and exceptions with pairwise
    distinct strings, none of them in the list, are appended in the
    order of the arguments. *)
Theorem push_exceptions_dedup (r : WorkFlowResults) (e : PyExc) :
  In (str e) (exceptions r) ->
  push_exceptions r [e] = r /\
  (forall (r0 : WorkFlowResults) (e1 e2 : PyExc),
     str e1 = str e2 ->
     push_exceptions r0 [e1; e2] = push_exceptions r0 [e1]) /\
  (forall (r0 : WorkFlowResults) (es : list PyExc),
     NoDup (map str es) ->
     (forall e', In e' es -> ~ In (str e') (exceptions r0)) ->
     exceptions (push_exceptions r0 es) = exceptions r0 ++ map str es).
Proof.
  intro H. split; [|split].
  - simpl. apply push_exception_known. exact H.
  - intros r0 e1 e2 E. unfold push_exceptions. simpl.
    apply push_exception_known. rewrite <- E. apply push_exception_records.
  - intros r0 es. apply push_exceptions_fresh.
Qed.

Lemma push_exceptions_dedup_witness :
  push_exceptions results_example [ExcObj 7 "E(ecut) is not decreasing"]
  = results_example /\
  push_exceptions results_example [ExcObj 1 "boom"; ExcObj 2 "boom"]
  = push_exceptions results_example [ExcObj 1 "boom"] /\
  exceptions (push_exceptions results_example [StrObj "a"; ExcObj 3 "b"])
  = ["E(ecut) is not decreasing"; "a"; "b"].
Proof.
  destruct (push_exceptions_dedup results_example
              (ExcObj 7 "E(ecut) is not decreasing")) as (H1 & H2 & H3).
  - simpl. left. reflexivity.
  - split; [exact H1|]. split; [apply H2; reflexivity|].
    rewrite H3.
    + reflexivity.
    + simpl. repeat constructor; simpl; intuition discriminate.
    + simpl. intros e' [<-|[<-|[]]]; simpl; intuition discriminate.
Defined.

(** ** CPU counters *)

Section Counters.

Context {api : Collaborators}.

Lemma counter_loop_total (test : Task -> bool) (sel : list Z) :
  (forall task, test task = existsb (Z.eqb (status task)) sel) ->
  forall (ts : list Task) (acc : Z),
    fold_left (fun ncpus task =>
                 if test task then ncpus + tot_ncpus task else ncpus) ts acc
    = acc + total sel ts.
Proof.
  intros Htest ts. induction ts as [|t tl IH]; intro acc; simpl; [lia|].
  rewrite IH. unfold share. rewrite <- Htest.
  destruct (test t); lia.
Qed.

Lemma ncpus_reserved_total (w : Workflow) :
  ncpus_reserved w = total [S_SUB] (_tasks w).
Proof.
  refine (counter_loop_total (fun task => status task =? S_SUB) [S_SUB] _ (_tasks w) 0).
  intro task. simpl. symmetry. apply orb_false_r.
Qed.

Lemma ncpus_inuse_total (w : Workflow) :
  ncpus_inuse w = total [S_RUN] (_tasks w).
Proof.
  refine (counter_loop_total (fun task => status task =? S_RUN) [S_RUN] _ (_tasks w) 0).
  intro task. simpl. symmetry. apply orb_false_r.
Qed.

Lemma ncpus_allocated_total (w : Workflow) :
  ncpus_allocated w = total [S_SUB; S_RUN] (_tasks w).
Proof.
  refine (counter_loop_total
            (fun task => existsb (Z.eqb (status task)) [S_SUB; S_RUN])
            [S_SUB; S_RUN] _ (_tasks w) 0).
  intro task. reflexivity.
Qed.

Hypothesis SUB_not_RUN : S_SUB <> S_RUN.

Lemma share_split (task : Task) :
  share [S_SUB; S_RUN] task = share [S_SUB] task + share [S_RUN] task.
Proof.
  unfold share. simpl.
  destruct (status task =? S_SUB) eqn:E1; destruct (status task =? S_RUN) eqn:E2;
    simpl; lia.
Qed.

Lemma total_split (ts : list Task) :
  total [S_SUB; S_RUN] ts = total [S_SUB] ts + total [S_RUN] ts.
Proof.
  induction ts as [|t tl IH]; [reflexivity|].
  simpl. rewrite IH, share_split. lia.
Qed.

End Counters.

(** C10.  With distinct codes for SUB and RUN, in every workflow state
    [ncpus_allocated] is [ncpus_reserved] plus [ncpus_inuse]: each counter
    is the sum over the tasks of the task's [tot_ncpus] when its status is
    among the counted ones (SUB or RUN, SUB, RUN) and of 0 otherwise, and
    no task has both statuses. *)
Theorem ncpus_allocated_is_reserved_plus_inuse {api : Collaborators} (w : Workflow) :
  S_SUB <> S_RUN ->
  ncpus_allocated w = ncpus_reserved w + ncpus_inuse w /\
  ncpus_allocated w = total [S_SUB; S_RUN] (_tasks w) /\
  ncpus_reserved w = total [S_SUB] (_tasks w) /\
  ncpus_inuse w = total [S_RUN] (_tasks w) /\
  (forall task, In task (_tasks w) ->
     ~ (status task = S_SUB /\ status task = S_RUN)).
Proof.
  intro Hne.
  rewrite ncpus_allocated_total, ncpus_reserved_total, ncpus_inuse_total.
  repeat split.
  - apply total_split. exact Hne.
  - intros task _ [H1 H2]. apply Hne. congruence.
Qed.

Lemma ncpus_allocated_is_reserved_plus_inuse_witness :
  @ncpus_allocated example_api workflow_example = 10 /\
  @ncpus_reserved example_api workflow_example = 8 /\
  @ncpus_inuse example_api workflow_example = 2 /\
  @ncpus_allocated example_api workflow_example
  = @ncpus_reserved example_api workflow_example
    + @ncpus_inuse example_api workflow_example.
Proof.
  split; [reflexivity|]. split; [reflexivity|]. split; [reflexivity|].
  apply (@ncpus_allocated_is_reserved_plus_inuse example_api workflow_example).
  simpl. lia.
Defined.

(** ** check_status *)

Lemma update_at_length {A} (f : A -> A) (l : list A) : forall i,
  length (update_at i f l) = length l.
Proof.
  induction l as [|x tl IH]; intros [|i]; simpl; try reflexivity.
  rewrite IH. reflexivity.
Qed.

Lemma nth_error_update_at_eq {A} (f : A -> A) (l : list A) : forall i,
  nth_error (update_at i f l) i = option_map f (nth_error l i).
Proof.
  induction l as [|x tl IH]; intros [|i]; simpl; try reflexivity. apply IH.
Qed.

Lemma nth_error_update_at_neq {A} (f : A -> A) (l : list A) : forall i j,
  i <> j -> nth_error (update_at i f l) j = nth_error l j.
Proof.
  induction l as [|x tl IH]; intros [|i] [|j] H; simpl; try reflexivity;
    try congruence.
  apply IH. congruence.
Qed.

Lemma fold_left_length {A B} (step : list A -> B -> list A) :
  (forall s i, length (step s i) = length s) ->
  forall (indices : list B) (s : list A),
    length (fold_left step indices s) = length s.
Proof.
  intros Hstep indices. induction indices as [|i tl IH]; intro s; simpl.
  - reflexivity.
  - rewrite IH. apply Hstep.
Qed.

Section CheckStatus.

Context {api : Collaborators}.

Lemma refresh_step_length (s : list Task) (i : nat) :
  length (refresh_step s i) = length s.
Proof.
  unfold refresh_step. destruct (nth_error s i); [apply update_at_length|reflexivity].
Qed.

Lemma promote_step_length (s : list Task) (i : nat) :
  length (promote_step s i) = length s.
Proof.
  unfold promote_step. destruct (nth_error s i); [|reflexivity].
  destruct (_ <=? _); [|reflexivity].
  destruct (forallb _ _); [apply update_at_length|reflexivity].
Qed.

Lemma check_status_length (w : Workflow) :
  length (_tasks (check_status w)) = length (_tasks w).
Proof.
  unfold check_status, promote_all, refresh_all. simpl.
  rewrite (fold_left_length promote_step promote_step_length).
  apply (fold_left_length refresh_step refresh_step_length).
Qed.

(** The test on the links reads the stores only through [is_ok]. *)
Lemma all_ok_view (s1 s2 : list Task) (task : Task) :
  (forall j, option_map is_ok (nth_error s1 j) = option_map is_ok (nth_error s2 j)) ->
  all_ok s1 task = all_ok s2 task.
Proof.
  intro Hview. unfold all_ok, links_status.
  induction (links task) as [|l tl IH]; [reflexivity|].
  simpl. rewrite !forallb_app, IH. f_equal.
  unfold Link_status. specialize (Hview (node l)).
  destruct (nth_error s1 (node l)), (nth_error s2 (node l)); simpl in *;
    try discriminate; [|reflexivity].
  unfold is_ok in Hview. injection Hview as ->. reflexivity.
Qed.

Hypothesis READY_le_SUB : S_READY <= S_SUB.
Hypothesis SUB_lt_OK : S_SUB < S_OK.

Lemma is_ok_promote (s : list Task) (task : Task) :
  is_ok (promote s task) = is_ok task.
Proof.
  unfold promote, is_ok.
  destruct (status task <=? S_SUB) eqn:E; simpl; [|reflexivity].
  destruct (all_ok s task); [|reflexivity].
  simpl. apply Z.leb_le in E.
  transitivity false; [|symmetry]; apply Z.eqb_neq; lia.
Qed.

(** After the iterations for the positions below [k], the tasks below
    [k] are the promoted ones and the others are untouched: reading the
    statuses while the loop runs gives what a snapshot taken before the
    loop gives. *)
Lemma promote_prefix (s : list Task) (k : nat) : forall j,
  nth_error (fold_left promote_step (seq 0 k) s) j
  = if (j <? k)%nat then option_map (promote s) (nth_error s j)
    else nth_error s j.
Proof.
  induction k as [|k IH]; intro j; [reflexivity|].
  rewrite seq_S, fold_left_app. simpl.
  set (sk := fold_left promote_step (seq 0 k) s) in *.
  assert (Hview : forall i, option_map is_ok (nth_error sk i)
                            = option_map is_ok (nth_error s i)).
  { intro i. rewrite IH. destruct (i <? k)%nat; [|reflexivity].
    destruct (nth_error s i); [|reflexivity]. simpl. f_equal. apply is_ok_promote. }
  assert (Hk : nth_error sk k = nth_error s k)
    by (rewrite IH, Nat.ltb_irrefl; reflexivity).
  unfold promote_step. rewrite Hk.
  destruct (Nat.eq_dec j k) as [->|Hne].
  - assert (E : (k <? S k)%nat = true) by (apply Nat.ltb_lt; lia). rewrite E.
    destruct (nth_error s k) as [t|] eqn:Et.
    + simpl. unfold promote.
      fold (all_ok sk t). rewrite (all_ok_view sk s t Hview).
      destruct (status t <=? S_SUB); simpl; [|rewrite Hk; reflexivity].
      destruct (all_ok s t); [|rewrite Hk; reflexivity].
      rewrite nth_error_update_at_eq, Hk. reflexivity.
    + rewrite Hk. reflexivity.
  - assert (E : (j <? S k)%nat = (j <? k)%nat).
    { destruct (j <? k)%nat eqn:E1.
      - apply Nat.ltb_lt in E1. apply Nat.ltb_lt. lia.
      - apply Nat.ltb_ge in E1. apply Nat.ltb_ge. lia. }
    rewrite E, <- IH.
    destruct (nth_error s k) as [t|]; [|reflexivity].
    destruct (status t <=? S_SUB); [|reflexivity].
    destruct (forallb _ _); [|reflexivity].
    apply nth_error_update_at_neq. congruence.
Qed.

Lemma promote_all_snapshot (s : list Task) (j : nat) :
  nth_error (promote_all s) j = option_map (promote s) (nth_error s j).
Proof.
  unfold promote_all. rewrite promote_prefix.
  destruct (j <? length s)%nat eqn:E; [reflexivity|].
  apply Nat.ltb_ge in E. apply nth_error_None in E. rewrite E. reflexivity.
Qed.

Lemma all_ok_promote_all (s : list Task) (task : Task) :
  all_ok (promote_all s) task = all_ok s task.
Proof.
  apply all_ok_view. intro j. rewrite promote_all_snapshot.
  destruct (nth_error s j); [|reflexivity]. simpl. f_equal. apply is_ok_promote.
Qed.


End CheckStatus.



(** ** Workflow.status *)

Lemma fold_min_spec (tl : list Z) : forall x,
  let m := fold_left Z.min tl x in
  (m = x \/ In m tl) /\ m <= x /\ forall y, In y tl -> m <= y.
Proof.
  induction tl as [|y tl IH]; intro x; simpl.
  - split; [left; reflexivity|]. split; [lia|]. intros y [].
  - destruct (IH (Z.min x y)) as (Hin & Hle & Hall).
    split; [|split].
    + destruct Hin as [Hin|Hin]; [|right; right; exact Hin].
      rewrite Hin. destruct (Z.min_spec x y) as [[_ ->]|[_ ->]];
        [left; reflexivity|right; left; reflexivity].
    + lia.
    + intros z [<-|Hz]; [lia|apply Hall; exact Hz].
Qed.

Lemma py_min_spec (l : list Z) :
  l <> [] ->
  exists m, py_min l = Ok m /\ In m l /\ forall y, In y l -> m <= y.
Proof.
  destruct l as [|x tl]; [congruence|]. intros _.
  destruct (fold_min_spec tl x) as (Hin & Hle & Hall).
  exists (fold_left Z.min tl x). split; [reflexivity|]. split.
  - destruct Hin as [->|Hin]; [left; reflexivity|right; exact Hin].
  - intros y [<-|Hy]; [exact Hle|apply Hall; exact Hy].
Qed.

(** C5.  For a workflow with at least one task the property [status]
    first runs [check_status] and returns the minimum of the statuses the
    tasks hold after it: a status of one of the tasks, below or equal to
    the status of every task.  Nothing is stored: the value is computed
    from the state in which the property is read. *)
Theorem Workflow_status_is_minimum {api : Collaborators} (w : Workflow) :
  _tasks w <> [] ->
  exists m : Z,
    Workflow_status w = (Ok (MinStatus m), check_status w) /\
    (exists task, In task (_tasks (check_status w)) /\ status task = m) /\
    (forall task, In task (_tasks (check_status w)) -> m <= status task).
Proof.
  intro Hne.
  assert (Hne' : map status (_tasks (check_status w)) <> []).
  { intro E. apply (f_equal (@length Z)) in E.
    rewrite length_map, check_status_length in E.
    destruct (_tasks w); [congruence|discriminate]. }
  destruct (py_min_spec _ Hne') as (m & Em & Hin & Hall).
  exists m. split; [|split].
  - unfold Workflow_status, get_all_status. rewrite Em. reflexivity.
  - apply in_map_iff in Hin. destruct Hin as (task & E & Hin).
    exists task. split; assumption.
  - intros task Hin'. apply Hall. apply in_map. exact Hin'.
Qed.

Lemma Workflow_status_is_minimum_witness :
  exists m : Z,
    @Workflow_status example_api workflow_example
    = (Ok (MinStatus m), @check_status example_api workflow_example) /\
    (exists task, In task (_tasks (@check_status example_api workflow_example)) /\
                  status task = m) /\
    (forall task, In task (_tasks (@check_status example_api workflow_example)) ->
                  m <= status task).
Proof.
  apply (@Workflow_status_is_minimum example_api workflow_example).
  discriminate.
Defined.

(** ** fetch_task_to_run *)

Lemma find_first {A} (f : A -> bool) (l : list A) (x : A) :
  find f l = Some x ->
  exists pre post,
    l = pre ++ x :: post /\ (forall y, In y pre -> f y = false) /\ f x = true.
Proof.
  induction l as [|a tl IH]; simpl; [discriminate|].
  destruct (f a) eqn:E.
  - intro H. injection H as <-. exists [], tl.
    split; [reflexivity|]. split; [intros y []|exact E].
  - intro H. destruct (IH H) as (pre & post & -> & Hpre & Hx).
    exists (a :: pre), post. split; [reflexivity|]. split; [|exact Hx].
    intros y [<-|Hy]; [exact E|apply Hpre; exact Hy].
Qed.

Lemma find_is_some {A} (f : A -> bool) (l : list A) :
  (exists x, In x l /\ f x = true) -> exists y, find f l = Some y.
Proof.
  intros (x & Hin & Hx). destruct (find f l) as [y|] eqn:E; [exists y; reflexivity|].
  rewrite (find_none f l E x Hin) in Hx. discriminate.
Qed.

Lemma find_is_none {A} (f : A -> bool) (l : list A) :
  (forall x, In x l -> f x = false) -> find f l = None.
Proof.
  intro H. destruct (find f l) as [y|] eqn:E; [|reflexivity].
  destruct (find_some f l E) as [Hin Hy]. rewrite (H y Hin) in Hy. discriminate.
Qed.

(** C3.  [fetch_task_to_run] first runs [check_status]; with [ts] the
    tasks after it: (1) if some task can run, the call returns the first
    task of [ts] that can run (no task before it can); (2) if no task can
    run, the call raises StopIteration exactly when every task is
    completed, and (3) if moreover some task is not completed it returns
    None and the possible-deadlock warning is logged. *)
Theorem fetch_task_to_run_outcomes {api : Collaborators} (w : Workflow) :
  let w' := check_status w in
  let ts := _tasks w' in
  ((exists task, In task ts /\ can_run ts task = true) ->
   exists pre task post,
     ts = pre ++ task :: post /\
     (forall t, In t pre -> can_run ts t = false) /\
     can_run ts task = true /\
     fetch_task_to_run w = (Ok (Some task), w')) /\
  ((forall task, In task ts -> can_run ts task = false) ->
   (fetch_task_to_run w = (Raise StopIteration, w') <->
    forall task, In task ts -> is_completed ts task = true) /\
   ((exists task, In task ts /\ is_completed ts task = false) ->
    fetch_task_to_run w = (Ok None, warned w'))).
Proof.
  intros w' ts. split.
  - intro Hex. destruct (find_is_some _ _ Hex) as (task & Hfind).
    destruct (find_first _ _ _ Hfind) as (pre & post & E & Hpre & Hrun).
    exists pre, task, post. repeat split; try assumption.
    unfold fetch_task_to_run. fold w'. fold ts. rewrite Hfind. reflexivity.
  - intro Hnone. apply find_is_none in Hnone.
    unfold fetch_task_to_run. fold w'. fold ts. rewrite Hnone.
    destruct (forallb (is_completed ts) ts) eqn:E.
    + rewrite forallb_forall in E. split.
      * split; [intros _; exact E|reflexivity].
      * intros (task & Hin & Hc). rewrite (E task Hin) in Hc. discriminate.
    + split.
      * split; [discriminate|]. intro Hall.
        apply forallb_forall in Hall. fold ts in E. congruence.
      * intros _. reflexivity.
Qed.

Lemma fetch_task_to_run_outcomes_witness :
  exists task,
    @fetch_task_to_run example_api workflow_example
    = (Ok (Some task), @check_status example_api workflow_example) /\
    task_id task = 1.
Proof.
  destruct (proj1 (@fetch_task_to_run_outcomes example_api workflow_example))
    as (pre & task & post & E & Hpre & Hrun & Hfetch).
  - exists {| task_id := 1; status := 1; tot_ncpus := 8;
              links := [{| node := 0;
                           products := [{| ext := "DEN";
                                           filepath := "task_0/out_DEN" |}] |}] |}.
    split; [right; left; reflexivity|reflexivity].
  - exists task. split; [exact Hfetch|].
    injection Hfetch as <-. reflexivity.
Defined.

(** ** register *)

(** C6.  [register] holds no check of its own: an object that is not a
    [Strategy] is handed to [AbinitTask.from_input].  With a constructor
    that fails with [UnsupportedJobSpecError] on what is neither a
    strategy nor a raw input, as the specification says, [register] on
    such an object fails with that error, whatever the links are, and
    leaves the workflow as it was: no task is added, no link recorded,
    and a later registration gets the task id it would have got. *)
Theorem register_rejects_unsupported_object {api : Collaborators}
    (w : Workflow) (obj : PyObj) (links : list Link) :
  rejects_unsupported ->
  is_Strategy obj = false -> is_AbinitInput obj = false ->
  register w obj links = (Raise UnsupportedJobSpecError, w) /\
  length (_tasks (snd (register w obj links))) = length (_tasks w) /\
  _links_dict (snd (register w obj links)) = _links_dict w /\
  forall obj' links',
    register (snd (register w obj links)) obj' links' = register w obj' links'.
Proof.
  intros Hspec Hs Hi.
  assert (E : register w obj links = (Raise UnsupportedJobSpecError, w)).
  { unfold register. rewrite Hs.
    rewrite (Hspec obj (Z.of_nat (length (_tasks w))) links Hs Hi).
    reflexivity. }
  rewrite E. cbn [snd].
  split; [reflexivity|]. split; [reflexivity|]. split; reflexivity.
Qed.

Lemma register_rejects_unsupported_object_witness :
  @register example_api workflow_example (OtherObj "42") []
  = (Raise UnsupportedJobSpecError, workflow_example).
Proof.
  apply (@register_rejects_unsupported_object example_api
           workflow_example (OtherObj "42") []).
  - intros obj task_id links Hs Hi. simpl. rewrite Hi. reflexivity.
  - reflexivity.
  - reflexivity.
Defined.

(** ** IterativeWork.submit_tasks *)

Section IterativeProperties.

Context {api : Collaborators}.

(** [next_task] takes at most one item from the generator and
    registers at most one task; when it returns a task it has done
    both, and the number of tasks is [niter]. *)
Lemma next_task_shape (iw iw1 : IterativeWork) (r : result Task) :
  next_task iw = (r, iw1) ->
  max_niter iw1 = max_niter iw /\ niter iw1 = niter iw /\
  (ntasks iw1 <= S (ntasks iw))%nat /\ (taken iw1 <= S (taken iw))%nat /\
  (forall task, r = Ok task ->
     ntasks iw1 = S (ntasks iw) /\ taken iw1 = S (taken iw) /\
     Z.of_nat (ntasks iw1) = niter iw1).
Proof.
  unfold next_task, generator_next, ntasks.
  destruct (strategy_generator iw (taken iw)) as [obj|].
  - unfold register. simpl.
    destruct (if is_Strategy obj then _ else _) as [task|e]; simpl.
    + rewrite length_app. simpl.
      destruct (Z.of_nat (length (_tasks (work iw)) + 1) =? niter iw) eqn:E;
        intro H; injection H as <- <-; simpl; rewrite ?length_app; simpl;
        repeat split; try lia; try discriminate.
      apply Z.eqb_eq in E. exact E.
    + intro H. injection H as <- <-. simpl. repeat split; try lia; discriminate.
  - intro H. injection H as <- <-. repeat split; try lia; discriminate.
Qed.

Lemma start_and_wait_shape (iw iw1 : IterativeWork) (task : Task) (r : result unit) :
  start_and_wait iw task = (r, iw1) ->
  max_niter iw1 = max_niter iw /\ niter iw1 = niter iw /\
  ntasks iw1 = ntasks iw /\ taken iw1 = taken iw.
Proof.
  unfold start_and_wait, ntasks.
  destruct (Task_start_wait task); intro H; injection H as <- <-; simpl;
    rewrite ?update_at_length; repeat split.
Qed.

(** One pass through the loop body. *)
Lemma loop_body_shape (iw iw1 : IterativeWork) (c : LoopExit) :
  loop_body iw = (c, iw1) ->
  max_niter iw1 = max_niter iw /\
  (ntasks iw1 <= S (ntasks iw))%nat /\ (taken iw1 <= S (taken iw))%nat /\
  (c = Continue -> niter iw1 = niter iw + 1) /\
  (max_niter iw < niter iw -> 0 < max_niter iw -> c = Break /\ iw1 = iw).
Proof.
  unfold loop_body.
  destruct ((max_niter iw <? niter iw) && (0 <? max_niter iw)) eqn:Estop.
  - intro H. injection H as <- <-. repeat split; try lia; try discriminate.
  - assert (Hgo : max_niter iw < niter iw -> 0 < max_niter iw -> False).
    { intros G1 G2. apply Z.ltb_lt in G1, G2. rewrite G1, G2 in Estop. discriminate. }
    destruct (next_task iw) as [r iw2] eqn:En.
    destruct (next_task_shape _ _ _ En) as (M2 & N2 & T2 & K2 & _).
    destruct r as [task|e].
    + destruct (start_and_wait iw2 task) as [r3 iw3] eqn:Es.
      destruct (start_and_wait_shape _ _ _ _ Es) as (M3 & N3 & T3 & K3).
      destruct r3 as [u|e].
      * destruct (exit_iteration (_tasks (work iw3))) as [[|]|e];
          intro H; injection H as <- <-; unfold ntasks in *; simpl;
          repeat split; try lia; try discriminate; try (intros; exfalso; auto).
      * intro H. injection H as <- <-.
        repeat split; try lia; try discriminate; try (intros; exfalso; auto).
    + destruct e; intro H; injection H as <- <-;
        repeat split; try lia; try discriminate; try (intros; exfalso; auto).
Qed.

(** With a positive [max_niter] the loop is left within
    [max_niter - niter + 2] passes, and no more than
    [max_niter - niter + 1] tasks are generated and registered. *)
Lemma submit_loop_bounded (fuel : nat) : forall iw : IterativeWork,
  0 < max_niter iw -> 1 <= niter iw ->
  (Z.to_nat (max_niter iw + 1 - niter iw) < fuel)%nat ->
  exists r iw',
    submit_loop fuel iw = Some (r, iw') /\
    max_niter iw' = max_niter iw /\
    (ntasks iw' <= ntasks iw + Z.to_nat (max_niter iw + 1 - niter iw))%nat /\
    (taken iw' <= taken iw + Z.to_nat (max_niter iw + 1 - niter iw))%nat.
Proof.
  induction fuel as [|fuel IH]; intros iw Hmax Hn Hfuel; [lia|].
  simpl. destruct (loop_body iw) as [c iw1] eqn:Eb.
  destruct (loop_body_shape _ _ _ Eb) as (M1 & T1 & K1 & C1 & Stop).
  destruct (Z_lt_le_dec (max_niter iw) (niter iw)) as [Hover|Hin].
  - destruct (Stop Hover Hmax) as [-> ->].
    exists (Ok tt), iw. repeat split; lia.
  - destruct c as [| |e].
    + exists (Ok tt), iw1. repeat split; try assumption; lia.
    + specialize (C1 eq_refl).
      destruct (IH iw1) as (r & iw' & E & M' & T' & K'); try lia.
      exists r, iw'. rewrite M1, C1 in *. repeat split; try assumption; lia.
    + exists (Raise e), iw1. repeat split; try assumption; lia.
Qed.

End IterativeProperties.

(** C7.  With [max_niter > 0]: (1) a pass through the loop that finds
    [niter > max_niter] leaves the loop at once, generating nothing;
    (2) [submit_tasks] leaves its loop within [max_niter + 1] passes, and
    by then at most [max_niter] strategies were taken from the generator
    and at most [max_niter] tasks registered; (3) whenever [next_task]
    returns a task it has taken one strategy, registered one task, and the
    number of tasks of the workflow equals [niter]. *)
Theorem submit_tasks_bounded {api : Collaborators} (iw : IterativeWork) (fuel : nat) :
  0 < max_niter iw -> (Z.to_nat (max_niter iw) < fuel)%nat ->
  (forall iw0 : IterativeWork,
     max_niter iw0 < niter iw0 -> 0 < max_niter iw0 ->
     loop_body iw0 = (Break, iw0)) /\
  (exists r iw',
     submit_tasks fuel iw = Some (r, iw') /\
     Z.of_nat (ntasks iw') <= Z.of_nat (ntasks iw) + max_niter iw /\
     Z.of_nat (taken iw') <= Z.of_nat (taken iw) + max_niter iw) /\
  (forall (iw1 iw2 : IterativeWork) (task : Task),
     next_task iw1 = (Ok task, iw2) ->
     Z.of_nat (ntasks iw2) = niter iw2 /\
     ntasks iw2 = S (ntasks iw1) /\ taken iw2 = S (taken iw1)).
Proof.
  intros Hmax Hfuel. split; [|split].
  - intros iw0 H1 H2. destruct (loop_body iw0) as [c iw1] eqn:E.
    destruct (loop_body_shape _ _ _ E) as (_ & _ & _ & _ & Stop).
    destruct (Stop H1 H2) as [-> ->]. reflexivity.
  - destruct (submit_loop_bounded fuel (with_niter iw 1))
      as (r & iw' & E & _ & T & K); simpl; try lia.
    exists r, iw'. split; [exact E|].
    unfold ntasks in *. simpl in T, K. split; lia.
  - intros iw1 iw2 task E.
    destruct (next_task_shape _ _ _ E) as (_ & _ & _ & _ & H).
    destruct (H task eq_refl) as (A & B & C). repeat split; assumption.
Qed.

Lemma submit_tasks_bounded_witness :
  exists r iw',
    @submit_tasks example_api 4 iterative_example = Some (r, iw') /\
    Z.of_nat (ntasks iw') <= 0 + 3 /\
    Z.of_nat (taken iw') <= 0 + 3.
Proof.
  apply (proj1 (proj2 (@submit_tasks_bounded example_api iterative_example 4
                         ltac:(simpl; lia) ltac:(simpl; lia)))).
Defined.

Example submit_tasks_example :
  option_map (fun x => (fst x, ntasks (snd x), taken (snd x), niter (snd x)))
             (@submit_tasks example_api 4 iterative_example)
  = Some (Ok tt, 3%nat, 3%nat, 4).
Proof. vm_compute. reflexivity. Qed.

(** * Further properties *)

(** ** Adjacent pairs *)

(** The pairs of [zip(values, values[1:])] are the pairs of neighbours. *)
Lemma adjacent_forall {A} (f : A * A -> bool) (d : A) (l : list A) :
  forallb f (combine l (tl l)) = true <->
  forall i, (S i < length l)%nat -> f (nth i l d, nth (S i) l d) = true.
Proof.
  induction l as [|x tl IH].
  - simpl. split; [intros _ i Hi; lia|reflexivity].
  - destruct tl as [|y tl'].
    + simpl. split; [intros _ i Hi; lia|reflexivity].
    + change (combine (x :: y :: tl') (tl (x :: y :: tl')))
        with ((x, y) :: combine (y :: tl') (tl (y :: tl'))).
      simpl forallb. rewrite andb_true_iff, IH. split.
      * intros [Hxy Hrest] [|i] Hi; [exact Hxy|].
        apply (Hrest i). simpl in *. lia.
      * intro H. split; [apply (H 0%nat); simpl; lia|].
        intros i Hi. apply (H (S i)). simpl in *. lia.
Qed.

Lemma adjacent_rev {A} (f : A * A -> bool) (l : list A) :
  forallb f (combine (rev l) (tl (rev l)))
  = forallb (fun p => f (snd p, fst p)) (combine l (tl l)).
Proof.
  destruct l as [|d0 l0]; [reflexivity|].
  set (l := d0 :: l0). clearbody l.
  apply eq_true_iff_eq.
  rewrite (adjacent_forall f d0 (rev l)).
  rewrite (adjacent_forall (fun p => f (snd p, fst p)) d0 l).
  rewrite length_rev. simpl fst. simpl snd.
  split; intros H i Hi.
  - specialize (H (length l - S (S i))%nat).
    rewrite !rev_nth in H by lia.
    replace (length l - S (length l - S (S i)))%nat with (S i) in H by lia.
    replace (length l - S (S (length l - S (S i))))%nat with i in H by lia.
    apply H. lia.
  - rewrite !rev_nth by lia.
    specialize (H (length l - S (S i))%nat).
    replace (S (length l - S (S i)))%nat with (length l - S i)%nat in H by lia.
    apply H. lia.
Qed.

Lemma forallb_impl {A} (f g : A -> bool) (l : list A) :
  (forall x, In x l -> f x = true -> g x = true) ->
  forallb f l = true -> forallb g l = true.
Proof.
  intros H Hf. apply forallb_forall. intros x Hx.
  apply H; [exact Hx|]. rewrite forallb_forall in Hf. apply Hf. exact Hx.
Qed.

Lemma forallb_pointwise {A} (f g : A -> bool) (l : list A) :
  (forall x, f x = g x) -> forallb f l = forallb g l.
Proof.
  intro H. induction l as [|x tl IH]; [reflexivity|].
  simpl. rewrite H, IH. reflexivity.
Qed.

(** ** The order predicates *)

(** X5.  Reading a list backwards exchanges increasing and decreasing:
    [strictly_decreasing] of a list is [strictly_increasing] of the
    reversed list, and [non_increasing] is [non_decreasing] of the reversed
    list. *)
Theorem order_predicates_reverse (values : list Q) :
  strictly_decreasing values = strictly_increasing (rev values) /\
  strictly_increasing values = strictly_decreasing (rev values) /\
  non_increasing values = non_decreasing (rev values) /\
  non_decreasing values = non_increasing (rev values).
Proof.
  unfold strictly_decreasing, strictly_increasing, non_increasing, non_decreasing.
  repeat split; rewrite adjacent_rev; reflexivity.
Qed.

(** ** monotonic *)

Lemma Qlt_bool_abs_swap (atol a b : Q) :
  Qlt_bool atol (Qabs (a - b)) = Qlt_bool atol (Qabs (b - a)).
Proof.
  assert (E : (Qabs (a - b) == Qabs (b - a))%Q).
  { rewrite <- (Qabs_opp (b - a)). apply Qabs_wd. ring. }
  apply eq_true_iff_eq. rewrite !Qlt_bool_iff, E. reflexivity.
Qed.

Lemma breaks_decrease_swap (atol : Q) (p : Q * Q) :
  breaks_decrease atol (snd p, fst p) = breaks_increase atol p.
Proof.
  destruct p as [v vp]. unfold breaks_decrease, breaks_increase. cbn [fst snd].
  rewrite (Qlt_bool_abs_swap atol v vp). reflexivity.
Qed.

(** With a tolerance that is not negative, a pair breaks the increase
    exactly when the value drops by more than the tolerance. *)
Lemma breaks_increase_iff (atol v vp : Q) :
  (0 <= atol)%Q ->
  (breaks_increase atol (v, vp) = false <-> (v - vp <= atol)%Q).
Proof.
  intro Ha. unfold breaks_increase. cbn [fst snd].
  rewrite andb_false_iff, Qlt_bool_false_iff. split.
  - intros [H|H].
    + apply Qabs_Qle_condition in H. lra.
    + destruct (Qle_bool vp v) eqn:E; [discriminate|].
      assert (Hlt : (v < vp)%Q).
      { apply Qnot_le_lt. intro Hle. apply Qle_bool_iff in Hle. congruence. }
      lra.
  - intro H. destruct (Qle_bool vp v) eqn:E; [|right; reflexivity].
    left. apply Qle_bool_iff in E. apply Qabs_Qle_condition. lra.
Qed.

Lemma breaks_decrease_iff (atol v vp : Q) :
  (0 <= atol)%Q ->
  (breaks_decrease atol (v, vp) = false <-> (vp - v <= atol)%Q).
Proof.
  intro Ha.
  rewrite <- (breaks_increase_iff atol vp v Ha).
  rewrite <- (breaks_decrease_swap atol (vp, v)). reflexivity.
Qed.

(** X1.  The check of [mode] in [monotonic] comes after the shortcut for
    lists of length 1: with a mode other than [">"] and ["<"] the call
    returns [True] on a one-element list and raises ValueError on every
    other list, the empty one included. *)
Theorem monotonic_wrong_mode (values : list Q) (mode : string) (atol : Q) :
  mode <> ">" -> mode <> "<" ->
  (length values = 1%nat -> monotonic values mode atol = Ok true) /\
  (length values <> 1%nat ->
   monotonic values mode atol = Raise (ValueError (wrong_mode mode))).
Proof.
  intros H1 H2. unfold monotonic.
  apply String.eqb_neq in H1, H2. rewrite H1, H2.
  split; intro H.
  - rewrite H. reflexivity.
  - apply Nat.eqb_neq in H. rewrite H. reflexivity.
Qed.

Lemma monotonic_wrong_mode_witness :
  monotonic [5%Q] "=" 0%Q = Ok true /\
  monotonic [] "=" 0%Q = Raise (ValueError "Wrong mode =") /\
  monotonic [1%Q; 2%Q] "=" 0%Q = Raise (ValueError "Wrong mode =").
Proof.
  split; [|split].
  - apply (proj1 (monotonic_wrong_mode [5%Q] "=" 0%Q
                    ltac:(discriminate) ltac:(discriminate))). reflexivity.
  - apply (proj2 (monotonic_wrong_mode [] "=" 0%Q
                    ltac:(discriminate) ltac:(discriminate))). discriminate.
  - apply (proj2 (monotonic_wrong_mode [1%Q; 2%Q] "=" 0%Q
                    ltac:(discriminate) ltac:(discriminate))). discriminate.
Defined.

(** Numbers whose arithmetic is exact: the integers among the rationals. *)
Lemma inject_Z_sub (a b : Z) : (inject_Z a - inject_Z b == inject_Z (a - b))%Q.
Proof.
  unfold Qeq, Qminus, Qplus, Qopp, inject_Z. simpl. lia.
Qed.

Lemma Qabs_inject_Z_sub (a b : Z) :
  (Qabs (inject_Z a - inject_Z b) == inject_Z (Z.abs (a - b)))%Q.
Proof.
  rewrite (Qabs_wd _ _ (inject_Z_sub a b)). reflexivity.
Qed.

Lemma nth_map_inject_Z (values : list Z) (j : nat) :
  nth j (map inject_Z values) 0%Q = inject_Z (nth j values 0).
Proof.
  change 0%Q with (inject_Z 0). apply map_nth.
Qed.

Lemma last_map_inject_Z (values : list Z) :
  last (map inject_Z values) 0%Q = inject_Z (last values 0).
Proof.
  induction values as [|x [|y tl] IH]; [reflexivity|reflexivity|].
  exact IH.
Qed.

(** The two modes of [monotonic] on rationals, with a tolerance that is
    not negative: the test of a pair comes down to the size of the drop
    (mode [">"]) or of the rise (mode ["<"]). *)
Lemma monotonic_rationals (values : list Q) (atol : Q) :
  (0 <= atol)%Q ->
  (exists b, monotonic values ">" atol = Ok b) /\
  (exists b, monotonic values "<" atol = Ok b) /\
  (monotonic values ">" atol = Ok true <->
   forall i, (S i < length values)%nat ->
             (nth i values 0 - nth (S i) values 0 <= atol)%Q) /\
  (monotonic values "<" atol = Ok true <->
   forall i, (S i < length values)%nat ->
             (nth (S i) values 0 - nth i values 0 <= atol)%Q).
Proof.
  intro Ha. unfold monotonic. simpl String.eqb.
  destruct (Nat.eqb (length values) 1) eqn:E.
  - apply Nat.eqb_eq in E.
    split; [exists true; reflexivity|]. split; [exists true; reflexivity|].
    split; (split; [intros _ i Hi; lia|reflexivity]).
  - split; [eexists; reflexivity|]. split; [eexists; reflexivity|].
    split.
    + split.
      * intro H. injection H as H.
        rewrite (adjacent_forall _ 0%Q) in H. intros i Hi.
        apply (breaks_increase_iff atol _ _ Ha).
        apply negb_true_iff. apply H. exact Hi.
      * intro H. f_equal. apply (adjacent_forall _ 0%Q). intros i Hi.
        apply negb_true_iff. apply (breaks_increase_iff atol _ _ Ha).
        apply H. exact Hi.
    + split.
      * intro H. injection H as H.
        rewrite (adjacent_forall _ 0%Q) in H. intros i Hi.
        apply (breaks_decrease_iff atol _ _ Ha).
        apply negb_true_iff. apply H. exact Hi.
      * intro H. f_equal. apply (adjacent_forall _ 0%Q). intros i Hi.
        apply negb_true_iff. apply (breaks_decrease_iff atol _ _ Ha).
        apply H. exact Hi.
Qed.

(** X2.  On a list of integers, whose differences Python computes
    exactly, and with a tolerance [atol >= 0], [monotonic] in mode [">"]
    returns [True] exactly when no value is followed by one that is more
    than [atol] below it, and in mode ["<"] exactly when no value is
    followed by one that is more than [atol] above it; in both modes it
    does not raise, whatever the list. *)
Theorem monotonic_within_tolerance (values : list Z) (atol : Q) :
  (0 <= atol)%Q ->
  (exists b, monotonic (map inject_Z values) ">" atol = Ok b) /\
  (exists b, monotonic (map inject_Z values) "<" atol = Ok b) /\
  (monotonic (map inject_Z values) ">" atol = Ok true <->
   forall i, (S i < length values)%nat ->
             (inject_Z (nth i values 0 - nth (S i) values 0)%Z <= atol)%Q) /\
  (monotonic (map inject_Z values) "<" atol = Ok true <->
   forall i, (S i < length values)%nat ->
             (inject_Z (nth (S i) values 0 - nth i values 0)%Z <= atol)%Q).
Proof.
  intro Ha.
  destruct (monotonic_rationals (map inject_Z values) atol Ha) as (A & B & C & D).
  split; [exact A|]. split; [exact B|].
  rewrite C, D, length_map.
  split; split; intros H i Hi; specialize (H i Hi);
    rewrite !nth_map_inject_Z in *;
    first [rewrite <- inject_Z_sub; exact H | rewrite inject_Z_sub; exact H].
Qed.

Lemma monotonic_within_tolerance_witness :
  monotonic (map inject_Z [12; 13; 13; 14]) ">" (1 # 100000000) = Ok true.
Proof.
  apply (proj1 (proj2 (proj2 (monotonic_within_tolerance
                                [12; 13; 13; 14] (1 # 100000000)
                                ltac:(apply Qle_bool_iff; reflexivity))))).
  intros i Hi. simpl in Hi.
  destruct i as [|[|[|i]]]; [| | |lia]; apply Qle_bool_iff; vm_compute; reflexivity.
Defined.

(** X3.  [monotonic] does not tell a decreasing list from the reversed
    increasing one: the call in mode ["<"] on the reversed list gives what
    the call in mode [">"] gives on the list, and the other way round. *)
Theorem monotonic_reverse (values : list Q) (atol : Q) :
  monotonic (rev values) "<" atol = monotonic values ">" atol /\
  monotonic (rev values) ">" atol = monotonic values "<" atol.
Proof.
  unfold monotonic. rewrite length_rev. simpl String.eqb.
  destruct (Nat.eqb (length values) 1); [split; reflexivity|].
  split; f_equal; rewrite adjacent_rev; apply forallb_pointwise; intros [v vp]; cbn [fst snd].
  - f_equal. apply (breaks_decrease_swap atol (v, vp)).
  - f_equal. symmetry. apply (breaks_decrease_swap atol (vp, v)).
Qed.

(** X4.  A strictly increasing list passes [monotonic] in mode [">"] and
    a strictly decreasing one in mode ["<"], whatever the tolerance, a
    negative one included; with a tolerance [>= 0] the same holds for
    lists that are only non-decreasing or non-increasing. *)
Theorem monotonic_of_ordered (values : list Q) (atol : Q) :
  (strictly_increasing values = true -> monotonic values ">" atol = Ok true) /\
  (strictly_decreasing values = true -> monotonic values "<" atol = Ok true) /\
  ((0 <= atol)%Q -> non_decreasing values = true ->
   monotonic values ">" atol = Ok true) /\
  ((0 <= atol)%Q -> non_increasing values = true ->
   monotonic values "<" atol = Ok true).
Proof.
  unfold monotonic, strictly_increasing, strictly_decreasing,
    non_decreasing, non_increasing. simpl String.eqb.
  destruct (Nat.eqb (length values) 1); [repeat split|].
  repeat split.
  - intro H. f_equal. revert H. apply forallb_impl. intros [v vp] _ H.
    simpl in H. apply Qlt_bool_iff in H.
    unfold breaks_increase. cbn [fst snd].
    destruct (Qle_bool vp v) eqn:E; [|rewrite andb_false_r; reflexivity].
    apply Qle_bool_iff in E. lra.
  - intro H. f_equal. revert H. apply forallb_impl. intros [v vp] _ H.
    simpl in H. apply Qlt_bool_iff in H.
    unfold breaks_decrease. cbn [fst snd].
    destruct (Qle_bool v vp) eqn:E; [|rewrite andb_false_r; reflexivity].
    apply Qle_bool_iff in E. lra.
  - intros Ha H. f_equal. revert H. apply forallb_impl. intros [v vp] _ H.
    simpl in H. apply Qle_bool_iff in H.
    apply negb_true_iff. apply (breaks_increase_iff atol v vp Ha). lra.
  - intros Ha H. f_equal. revert H. apply forallb_impl. intros [v vp] _ H.
    simpl in H. apply Qle_bool_iff in H.
    apply negb_true_iff. apply (breaks_decrease_iff atol v vp Ha). lra.
Qed.

Lemma monotonic_of_ordered_witness :
  monotonic [3; 2; 1]%Q "<" (- (1))%Q = Ok true /\
  monotonic [1; 1; 2]%Q ">" 0%Q = Ok true.
Proof.
  split.
  - apply (proj1 (proj2 (monotonic_of_ordered [3; 2; 1]%Q (- (1))%Q))).
    reflexivity.
  - apply (proj1 (proj2 (proj2 (monotonic_of_ordered [1; 1; 2]%Q 0%Q)))).
    + apply Qle_refl.
    + reflexivity.
Defined.

(** ** check_conv: errors, soundness, monotonicity *)

Lemma mapM_total {A B} (f : A -> result B) (g : A -> B) (l : list A) :
  (forall x, In x l -> f x = Ok (g x)) -> mapM f l = Ok (map g l).
Proof.
  induction l as [|x tl IH]; intro H; [reflexivity|].
  simpl. rewrite (H x (or_introl eq_refl)). cbn [bind].
  rewrite IH by (intros y Hy; apply H; right; exact Hy). reflexivity.
Qed.

(** What an index other than -1 returned by the index computation tells
    about the list of deviations. *)
Lemma conv_index_sound (vdiff : list Q) (tol : Q) (min_numpts r : Z) :
  conv_index vdiff tol min_numpts = Ok r -> r <> -1 ->
  exists i : nat,
    r = Z.of_nat i + 1 /\
    conv_loop vdiff tol (length vdiff) (-2) = Z.of_nat i /\
    (2 <= length vdiff)%nat /\ (i < length vdiff)%nat /\
    min_numpts < Z.of_nat (length vdiff) /\
    min_numpts <= Z.of_nat (length vdiff) - Z.of_nat i - 1 /\
    (nth (length vdiff - 2) vdiff 0 < tol)%Q /\
    (forall j, (i < j < length vdiff)%nat -> (nth j vdiff 0 <= tol)%Q) /\
    ((tol < nth i vdiff 0)%Q \/ i = 0%nat /\ (nth 0 vdiff 0 <= tol)%Q).
Proof.
  unfold conv_index. intros H Hr.
  destruct (min_numpts <? Z.of_nat (length vdiff)) eqn:Em; cbn [bind] in H;
    [|injection H as <-; lia].
  apply Z.ltb_lt in Em.
  destruct (Nat.lt_ge_cases (length vdiff) 2) as [Hs|Hl].
  { rewrite (py_getitem_second_to_last_short vdiff Hs) in H. discriminate. }
  rewrite (py_getitem_second_to_last vdiff 0%Q Hl) in H. cbn [bind] in H.
  destruct (Qlt_bool (nth (length vdiff - 2) vdiff 0%Q) tol) eqn:Ed;
    cbn [bind] in H; [|injection H as <-; lia].
  apply Qlt_bool_iff in Ed.
  destruct (conv_loop_spec vdiff tol (length vdiff) (-2)) as (i & Ei & Hi & Hab & Hat);
    [lia|].
  rewrite Ei in H.
  destruct (Z.of_nat (length vdiff) - Z.of_nat i - 1 <? min_numpts) eqn:Ec;
    injection H as <-; [lia|]. apply Z.ltb_ge in Ec.
  exists i. repeat split; try assumption; try lia.
  - intros j Hj. apply Qlt_bool_false_iff. apply Hab. exact Hj.
  - destruct Hat as [Hat|[-> Hat]].
    + left. apply Qlt_bool_iff. exact Hat.
    + right. split; [reflexivity|]. apply Qlt_bool_false_iff. exact Hat.
Qed.

(** The converse: what makes the index computation return the loop's
    final index plus one. *)
Lemma conv_index_converged (vdiff : list Q) (tol : Q) (min_numpts : Z) (i : nat) :
  (2 <= length vdiff)%nat ->
  min_numpts < Z.of_nat (length vdiff) ->
  (nth (length vdiff - 2) vdiff 0 < tol)%Q ->
  conv_loop vdiff tol (length vdiff) (-2) = Z.of_nat i ->
  min_numpts <= Z.of_nat (length vdiff) - Z.of_nat i - 1 ->
  conv_index vdiff tol min_numpts = Ok (Z.of_nat i + 1).
Proof.
  intros Hn Hm Hd Ei Hc. unfold conv_index.
  destruct (min_numpts <? Z.of_nat (length vdiff)) eqn:Em;
    [|apply Z.ltb_ge in Em; lia].
  rewrite (py_getitem_second_to_last vdiff 0%Q Hn). cbn [bind].
  apply Qlt_bool_iff in Hd. rewrite Hd, Ei.
  destruct (Z.of_nat (length vdiff) - Z.of_nat i - 1 <? min_numpts) eqn:Ec;
    [apply Z.ltb_lt in Ec; lia|reflexivity].
Qed.

(** The list of deviations [check_conv] builds in absolute mode. *)
Lemma check_conv_abs_reference (values : list Q) (tol : Q) (min_numpts : Z)
    (vinf : option Q) (ref : Q) :
  match vinf with
  | Some v => v = ref
  | None => values <> [] /\ last values 0%Q = ref
  end ->
  check_conv values tol min_numpts "abs" vinf
  = conv_index (map (fun v => Qabs (v - ref)) values) tol min_numpts.
Proof.
  destruct vinf as [v|].
  - intros ->. reflexivity.
  - intros [Hne <-]. apply check_conv_abs_default. exact Hne.
Qed.

(** X6.  Errors of [check_conv] on short input and on a wrong mode.  The
    empty list with the default reference raises IndexError whatever the
    mode, a wrong one included; a mode other than ["abs"] and ["rel"]
    raises ValueError as soon as a reference is available; a one-element
    list with the default reference gives -1 when [min_numpts >= 1] and
    raises IndexError when [min_numpts <= 0]. *)
Theorem check_conv_short_input (tol : Q) (min_numpts : Z) (mode : string) :
  check_conv [] tol min_numpts mode None = Raise IndexError /\
  (mode <> "abs" -> mode <> "rel" ->
   forall values vinf, values <> [] \/ vinf <> None ->
     check_conv values tol min_numpts mode vinf = Raise (ValueError (wrong_mode mode))) /\
  (1 <= min_numpts ->
   forall x, check_conv [x] tol min_numpts "abs" None = Ok (-1)) /\
  (min_numpts <= 0 ->
   forall x, check_conv [x] tol min_numpts "abs" None = Raise IndexError).
Proof.
  split; [reflexivity|]. split; [|split].
  - intros H1 H2 values vinf Hav. unfold check_conv.
    apply String.eqb_neq in H1, H2. rewrite H1, H2.
    destruct vinf as [v|]; [reflexivity|].
    destruct Hav as [Hne|Hv]; [|congruence].
    rewrite (py_getitem_last values 0%Q Hne). reflexivity.
  - intros Hm x. rewrite check_conv_abs_default by discriminate.
    unfold conv_index. simpl length.
    destruct (min_numpts <? Z.of_nat 1) eqn:E; [apply Z.ltb_lt in E; lia|reflexivity].
  - intros Hm x. rewrite check_conv_abs_default by discriminate.
    unfold conv_index. simpl length.
    destruct (min_numpts <? Z.of_nat 1) eqn:E; [reflexivity|apply Z.ltb_ge in E; lia].
Qed.

Lemma check_conv_short_input_witness :
  check_conv [1%Q] tol_1e_3 1 "relative" None = Raise (ValueError "Wrong mode relative") /\
  check_conv [5%Q] tol_1e_3 1 "abs" None = Ok (-1) /\
  check_conv [5%Q] tol_1e_3 0 "abs" None = Raise IndexError.
Proof.
  split; [|split].
  - apply (proj1 (proj2 (check_conv_short_input tol_1e_3 1 "relative")));
      [discriminate|discriminate|left; discriminate].
  - apply (proj1 (proj2 (proj2 (check_conv_short_input tol_1e_3 1 "abs")))). lia.
  - apply (proj2 (proj2 (proj2 (check_conv_short_input tol_1e_3 0 "abs")))). lia.
Defined.

(** What an index returned in absolute mode says of rationals. *)
Lemma check_conv_abs_rationals (values : list Q) (tol : Q) (min_numpts : Z)
    (vinf : option Q) (ref : Q) (r : Z) :
  match vinf with
  | Some v => v = ref
  | None => values <> [] /\ last values 0%Q = ref
  end ->
  check_conv values tol min_numpts "abs" vinf = Ok r -> r <> -1 ->
  1 <= r <= Z.of_nat (length values) /\
  min_numpts <= Z.of_nat (length values) - r /\
  (forall j, r <= Z.of_nat j -> (j < length values)%nat ->
             (Qabs (nth j values 0 - ref) <= tol)%Q) /\
  (2 <= length values)%nat /\
  (Qabs (nth (length values - 2) values 0 - ref) < tol)%Q.
Proof.
  intros Href H Hr.
  rewrite (check_conv_abs_reference values tol min_numpts vinf ref Href) in H.
  destruct (conv_index_sound _ _ _ _ H Hr)
    as (i & -> & _ & Hn & Hi & _ & Hc & Hd & Hall & _).
  set (f := fun v => Qabs (v - ref)) in *.
  rewrite length_map in *.
  assert (Hnth : forall j, (j < length values)%nat ->
                           nth j (map f values) 0%Q = f (nth j values 0%Q)).
  { intros j Hj. rewrite (nth_indep _ 0%Q (f 0%Q)) by (rewrite length_map; exact Hj).
    apply map_nth. }
  split; [lia|]. split; [lia|]. split; [|split; [exact Hn|]].
  - intros j Hrj Hj. change (f (nth j values 0%Q) <= tol)%Q.
    rewrite <- (Hnth j Hj). apply Hall. lia.
  - change (f (nth (length values - 2) values 0%Q) < tol)%Q.
    rewrite <- (Hnth (length values - 2)%nat) by lia. exact Hd.
Qed.

(** X7.  On a list of integers with an integer reference, explicit or
    the default one, the deviations of absolute mode are computed
    exactly.  An index [r] other than -1 that [check_conv] returns then
    lies in [1 .. len(values)], leaves at least [min_numpts] points from
    [r] on, every point from [r] on is within [tol] of the reference, and
    the second-to-last point is strictly within [tol]. *)
Theorem check_conv_abs_sound (values : list Z) (tol : Q) (min_numpts : Z)
    (vinf : option Z) (ref : Z) (r : Z) :
  match vinf with
  | Some v => v = ref
  | None => values <> [] /\ last values 0 = ref
  end ->
  check_conv (map inject_Z values) tol min_numpts "abs" (option_map inject_Z vinf)
  = Ok r ->
  r <> -1 ->
  1 <= r <= Z.of_nat (length values) /\
  min_numpts <= Z.of_nat (length values) - r /\
  (forall j, r <= Z.of_nat j -> (j < length values)%nat ->
             (inject_Z (Z.abs (nth j values 0 - ref))%Z <= tol)%Q) /\
  (2 <= length values)%nat /\
  (inject_Z (Z.abs (nth (length values - 2) values 0 - ref))%Z < tol)%Q.
Proof.
  intros Href H Hr.
  assert (HrefQ : match option_map inject_Z vinf with
                  | Some v => v = inject_Z ref
                  | None => map inject_Z values <> [] /\
                            last (map inject_Z values) 0%Q = inject_Z ref
                  end).
  { destruct vinf as [v|]; simpl.
    - rewrite Href. reflexivity.
    - destruct Href as [Hne <-]. split.
      + destruct values; [congruence|discriminate].
      + apply last_map_inject_Z. }
  destruct (check_conv_abs_rationals _ _ _ _ _ _ HrefQ H Hr)
    as (B1 & B2 & Hall & Hn & Hd).
  rewrite length_map in *.
  split; [exact B1|]. split; [exact B2|]. split; [|split; [exact Hn|]].
  - intros j Hrj Hj. specialize (Hall j Hrj Hj).
    rewrite nth_map_inject_Z, Qabs_inject_Z_sub in Hall. exact Hall.
  - rewrite nth_map_inject_Z, Qabs_inject_Z_sub in Hd. exact Hd.
Qed.

Lemma check_conv_abs_sound_witness :
  check_conv (map inject_Z [7; 3; 2; 2]) 1%Q 1 "abs" (Some (inject_Z 2)) = Ok 1 /\
  (inject_Z (Z.abs (nth 1 [7; 3; 2; 2] 0 - 2))%Z <= 1)%Q.
Proof.
  split; [reflexivity|].
  refine (proj1 (proj2 (proj2 (check_conv_abs_sound [7; 3; 2; 2] 1%Q 1 (Some 2)
                                  2 1 eq_refl eq_refl _))) 1%nat _ _);
    [discriminate|simpl; lia|simpl; lia].
Defined.

Lemma conv_index_all_within (vdiff : list Q) (tol : Q) (min_numpts : Z) :
  (2 <= length vdiff)%nat -> min_numpts < Z.of_nat (length vdiff) ->
  (nth (length vdiff - 2) vdiff 0 < tol)%Q ->
  (forall j, (j < length vdiff)%nat -> (nth j vdiff 0 <= tol)%Q) ->
  conv_index vdiff tol min_numpts = Ok 1.
Proof.
  intros Hn Hm Hd Hall.
  destruct (conv_loop_spec vdiff tol (length vdiff) (-2)) as (i & Ei & Hi & _ & Hat);
    [lia|].
  assert (i = 0%nat) as ->.
  { destruct Hat as [Hat|[-> _]]; [|reflexivity]. exfalso.
    apply Qlt_bool_iff in Hat. specialize (Hall i Hi).
    exact (Qlt_irrefl _ (Qlt_le_trans _ _ _ Hat Hall)). }
  apply (conv_index_converged vdiff tol min_numpts 0 Hn Hm Hd Ei). simpl. lia.
Qed.

Lemma conv_index_looser (values : list Q) (tol1 tol2 : Q) (m1 m2 r1 : Z) :
  values <> [] ->
  (tol1 <= tol2)%Q -> m2 <= m1 \/ m2 <= 1 ->
  conv_index (deviations values) tol1 m1 = Ok r1 -> r1 <> -1 ->
  exists r2, conv_index (deviations values) tol2 m2 = Ok r2 /\ 1 <= r2 <= r1.
Proof.
  intros Hne Htol Hm H Hr.
  destruct (conv_index_sound _ _ _ _ H Hr)
    as (i1 & -> & E1 & Hn & Hi1 & Hm1 & Hc1 & Hd & _ & Hat).
  set (vdiff := deviations values) in *.
  assert (Hlen : length vdiff = length values)
    by (unfold vdiff, deviations; apply length_map).
  destruct (conv_loop_spec vdiff tol2 (length vdiff) (-2))
    as (i2 & E2 & Hi2 & _); [lia|].
  assert (Hle : (i2 <= i1)%nat).
  { assert (A := conv_loop_antitone vdiff tol1 tol2 (length vdiff) (-2)
                   ltac:(lia) Htol).
    rewrite E1, E2 in A. lia. }
  assert (Hlast : (i1 <= length vdiff - 2)%nat).
  { destruct Hat as [Hat|[-> _]]; [|lia].
    destruct (Nat.eq_dec i1 (length vdiff - 1)) as [->|Hne1]; [|lia].
    exfalso. rewrite Hlen in Hat. unfold vdiff in Hat.
    rewrite (deviation_last values Hne) in Hat.
    apply (Qlt_irrefl tol1). eapply Qlt_trans; [exact Hat|].
    eapply Qle_lt_trans; [apply (deviation_nonneg values)|exact Hd]. }
  exists (Z.of_nat i2 + 1). split; [|lia].
  apply conv_index_converged; try assumption; try lia.
  eapply Qlt_le_trans; [exact Hd|exact Htol].
Qed.

(** X8.  With the default reference, making the tolerance larger and
    [min_numpts] smaller (or at most 1) never loses convergence and never
    moves the index to the right: if [check_conv] returns an index other
    than -1 for [tol1] and [m1], it returns an index between 1 and that
    one for every [tol2 >= tol1] and every [m2] with [m2 <= m1] or
    [m2 <= 1]. *)
Theorem check_conv_looser (values : list Q) (tol1 tol2 : Q) (m1 m2 r1 : Z) :
  (tol1 <= tol2)%Q -> m2 <= m1 \/ m2 <= 1 ->
  check_conv values tol1 m1 "abs" None = Ok r1 -> r1 <> -1 ->
  exists r2, check_conv values tol2 m2 "abs" None = Ok r2 /\ 1 <= r2 <= r1.
Proof.
  intros Htol Hm H Hr.
  assert (Hne : values <> []) by (intros ->; discriminate).
  rewrite (check_conv_abs_default values tol1 m1 Hne) in H.
  rewrite (check_conv_abs_default values tol2 m2 Hne).
  exact (conv_index_looser values tol1 tol2 m1 m2 r1 Hne Htol Hm H Hr).
Qed.

Lemma check_conv_looser_witness :
  exists r2,
    check_conv etotal_example (1 # 100000)%Q 1 "abs" None = Ok r2 /\
    1 <= r2 <= 4.
Proof.
  apply (check_conv_looser etotal_example (1 # 1000000)%Q (1 # 100000)%Q 2 1 4).
  - apply Qle_bool_iff. reflexivity.
  - left. lia.
  - vm_compute. reflexivity.
  - discriminate.
Defined.

(** X9.  In absolute mode with the default reference and
    [min_numpts >= 1], [check_conv] raises nothing on a non-empty list;
    with a tolerance [<= 0] it reports no convergence. *)
Theorem check_conv_abs_total (values : list Q) (tol : Q) (min_numpts : Z) :
  values <> [] -> 1 <= min_numpts ->
  (exists r, check_conv values tol min_numpts "abs" None = Ok r) /\
  ((tol <= 0)%Q -> check_conv values tol min_numpts "abs" None = Ok (-1)).
Proof.
  intros Hne Hm. rewrite (check_conv_abs_default values tol min_numpts Hne).
  unfold conv_index.
  assert (Hlen : length (deviations values) = length values)
    by (unfold deviations; apply length_map).
  destruct (min_numpts <? Z.of_nat (length (deviations values))) eqn:E;
    [|split; [eexists|intros _]; reflexivity].
  apply Z.ltb_lt in E.
  rewrite (py_getitem_second_to_last (deviations values) 0%Q) by lia.
  cbn [bind]. split.
  - destruct (Qlt_bool _ tol); eexists; reflexivity.
  - intro Htol.
    destruct (Qlt_bool (nth (length (deviations values) - 2) (deviations values) 0%Q) tol)
      eqn:Ed; [|reflexivity].
    apply Qlt_bool_iff in Ed. exfalso.
    apply (Qlt_irrefl tol). eapply Qle_lt_trans; [exact Htol|].
    eapply Qle_lt_trans; [apply (deviation_nonneg values)|exact Ed].
Qed.

Lemma check_conv_abs_total_witness :
  check_conv series_flat 0%Q 1 "abs" None = Ok (-1).
Proof.
  apply (proj2 (check_conv_abs_total series_flat 0%Q 1
                  ltac:(discriminate) ltac:(lia))).
  apply Qle_refl.
Defined.

Lemma check_conv_rel_reference (values : list Q) (tol : Q) (min_numpts : Z)
    (vinf : option Q) (ref : Q) :
  match vinf with
  | Some v => v = ref
  | None => values <> [] /\ last values 0%Q = ref
  end ->
  ~ (ref == 0)%Q ->
  check_conv values tol min_numpts "rel" vinf
  = conv_index (map (fun v => Qabs (v - ref) / ref)%Q values) tol min_numpts.
Proof.
  intros Href Hnz. unfold check_conv.
  assert (Hv : match vinf with
               | None => py_getitem values (-1)
               | Some v => Ok v
               end = Ok ref).
  { destruct vinf as [v|]; [rewrite Href; reflexivity|].
    destruct Href as [Hne <-]. apply py_getitem_last. exact Hne. }
  rewrite Hv. cbn [bind]. simpl String.eqb. cbv iota.
  rewrite (mapM_total _ (fun v => Qabs (v - ref) / ref)%Q).
  - reflexivity.
  - intros x _. unfold py_div.
    destruct (Qeq_bool ref 0) eqn:E; [|reflexivity].
    apply Qeq_bool_iff in E. contradiction.
Qed.

(** X10.  In relative mode the deviation is divided by the reference
    itself, not by its absolute value: with a negative reference every
    entry of [vdiff] is [<= 0], so for every tolerance [> 0] and every
    list of at least two and more than [min_numpts] values [check_conv]
    returns 1, whatever the values are. *)
Theorem check_conv_rel_negative_reference (values : list Q) (tol : Q)
    (min_numpts : Z) (vinf : option Q) (ref : Q) :
  match vinf with
  | Some v => v = ref
  | None => values <> [] /\ last values 0%Q = ref
  end ->
  (ref < 0)%Q -> (0 < tol)%Q ->
  (2 <= length values)%nat -> min_numpts < Z.of_nat (length values) ->
  check_conv values tol min_numpts "rel" vinf = Ok 1.
Proof.
  intros Href Hneg Htol Hn Hm.
  rewrite (check_conv_rel_reference values tol min_numpts vinf ref Href)
    by (intro E; rewrite E in Hneg; exact (Qlt_irrefl _ Hneg)).
  set (g := (fun v => Qabs (v - ref) / ref)%Q).
  assert (Hg : forall v, (g v <= 0)%Q).
  { intro v. unfold g, Qdiv.
    assert (Hinv : (/ ref < 0)%Q).
    { assert (Hp : (0 < / - ref)%Q) by (apply Qinv_lt_0_compat; lra).
      assert (E : (/ - ref == - / ref)%Q) by (field; lra).
      rewrite E in Hp. lra. }
    assert (Ha := Qabs_nonneg (v - ref)).
    nra. }
  assert (Hnth : forall j, (nth j (map g values) 0 <= 0)%Q).
  { intro j. destruct (Nat.lt_ge_cases j (length values)) as [Hj|Hj].
    - rewrite (nth_indep _ 0%Q (g 0%Q)) by (rewrite length_map; exact Hj).
      rewrite map_nth. apply Hg.
    - rewrite nth_overflow by (rewrite length_map; exact Hj). apply Qle_refl. }
  apply conv_index_all_within; rewrite ?length_map; try assumption.
  - eapply Qle_lt_trans; [apply Hnth|exact Htol].
  - intros j _. eapply Qle_trans; [apply Hnth|]. apply Qlt_le_weak. exact Htol.
Qed.

Lemma check_conv_rel_negative_reference_witness :
  check_conv [- (1); 5; - (100); - (10)]%Q tol_1e_3 1 "rel" None = Ok 1.
Proof.
  apply (check_conv_rel_negative_reference [- (1); 5; - (100); - (10)]%Q
           tol_1e_3 1 None (- (10))%Q).
  - split; [discriminate|reflexivity].
  - reflexivity.
  - reflexivity.
  - simpl. lia.
  - simpl. lia.
Defined.

(** ** compute_hints: the returned dictionary *)

Lemma py_getitem_nonneg_inv {A} (l : list A) (d x : A) (i : Z) :
  0 <= i -> py_getitem l i = Ok x ->
  i < Z.of_nat (length l) /\ x = nth (Z.to_nat i) l d.
Proof.
  intros Hi H.
  destruct (Z_lt_le_dec i (Z.of_nat (length l))) as [Hlt|Hge].
  - split; [exact Hlt|].
    rewrite <- (Z2Nat.id i Hi) in H.
    rewrite (py_getitem_nonneg l d (Z.to_nat i)) in H by lia.
    injection H as <-. reflexivity.
  - exfalso. unfold py_getitem in H.
    destruct (i <? 0) eqn:E1; [apply Z.ltb_lt in E1; lia|].
    rewrite E1 in H. simpl in H.
    destruct (Z.of_nat (length l) <=? i) eqn:E2; [discriminate|].
    apply Z.leb_gt in E2. lia.
Qed.

Lemma py_getitem_last_inv {A} (l : list A) (d x : A) :
  py_getitem l (-1) = Ok x -> l <> [] /\ x = last l d.
Proof.
  intro H. destruct l as [|a tl]; [discriminate|].
  split; [discriminate|].
  rewrite (py_getitem_last (a :: tl) d) in H by discriminate.
  injection H as <-. reflexivity.
Qed.

(** A run of [compute_hints] that returns, step by step. *)
Lemma compute_hints_inv (Ha_to_eV : Q) (ecuts etot : list Q) (atols : Q * Q * Q)
    (pseudo : Pseudo) (min_numpts : Z) (data : Hints) :
  compute_hints Ha_to_eV ecuts etot atols pseudo min_numpts = Ok data ->
  exists de_low de_normal de_high ihigh inormal ilow,
    tolerances Ha_to_eV atols = Ok (de_low, de_normal, de_high) /\
    etot <> [] /\
    check_conv etot de_high min_numpts "abs" None = Ok ihigh /\
    check_conv etot de_normal 1 "abs" None = Ok inormal /\
    check_conv etot de_low 1 "abs" None = Ok ilow /\
    exit data = negb (ihigh =? -1) /\
    etotal data = etot /\ ecut_list data = ecuts /\
    (ihigh = -1 ->
     ecut (low data) = None /\ ecut (normal data) = None /\ ecut (high data) = None) /\
    (ihigh <> -1 ->
     exists xl xn xh,
       py_getitem ecuts ilow = Ok xl /\ py_getitem ecuts inormal = Ok xn /\
       py_getitem ecuts ihigh = Ok xh /\
       ecut (low data) = Some xl /\ ecut (normal data) = Some xn /\
       ecut (high data) = Some xh).
Proof.
  unfold compute_hints. intro H.
  destruct (tolerances Ha_to_eV atols) as [[[de_low de_normal] de_high]|e] eqn:Et;
    cbn [bind] in H; [|discriminate].
  destruct (py_getitem etot (-1)) as [einf|e] eqn:El; cbn [bind] in H; [|discriminate].
  destruct (check_conv etot de_high min_numpts "abs" None) as [ihigh|e] eqn:Eh;
    cbn [bind] in H; [|discriminate].
  destruct (check_conv etot de_normal 1 "abs" None) as [inormal|e] eqn:En;
    cbn [bind] in H; [|discriminate].
  destruct (check_conv etot de_low 1 "abs" None) as [ilow|e] eqn:Elow;
    cbn [bind] in H; [|discriminate].
  exists de_low, de_normal, de_high, ihigh, inormal, ilow.
  split; [reflexivity|].
  split; [apply (py_getitem_last_inv etot 0%Q einf El)|].
  split; [exact Eh|]. split; [exact En|]. split; [exact Elow|].
  destruct (ihigh =? -1) eqn:Ex; cbn [negb bind] in H.
  - injection H as <-. apply Z.eqb_eq in Ex. cbn.
    split; [reflexivity|]. split; [reflexivity|]. split; [reflexivity|].
    split; [intros _; repeat split|intro Hc; congruence].
  - apply Z.eqb_neq in Ex.
    destruct (py_getitem ecuts ilow) as [xl|e]; cbn [bind] in H; [|discriminate].
    destruct (py_getitem ecuts inormal) as [xn|e]; cbn [bind] in H; [|discriminate].
    destruct (py_getitem ecuts ihigh) as [xh|e]; cbn [bind] in H; [|discriminate].
    injection H as <-. cbn.
    split; [reflexivity|]. split; [reflexivity|]. split; [reflexivity|].
    split; [intro Hc; congruence|].
    intros _. exists xl, xn, xh. repeat split; reflexivity.
Qed.

(** X11.  Whenever [compute_hints] returns, the entries low, normal and
    high of the dictionary are all [None] when [exit] is false and all
    set when [exit] is true, and the lists of energies and of parameters
    are handed back as they came in. *)
Theorem compute_hints_all_or_nothing (Ha_to_eV : Q) (ecuts etot : list Q)
    (atols : Q * Q * Q) (pseudo : Pseudo) (min_numpts : Z) (data : Hints) :
  compute_hints Ha_to_eV ecuts etot atols pseudo min_numpts = Ok data ->
  (exit data = false ->
   ecut (low data) = None /\ ecut (normal data) = None /\ ecut (high data) = None) /\
  (exit data = true ->
   ecut (low data) <> None /\ ecut (normal data) <> None /\ ecut (high data) <> None) /\
  etotal data = etot /\ ecut_list data = ecuts.
Proof.
  intro H.
  destruct (compute_hints_inv _ _ _ _ _ _ _ H)
    as (dl & dn & dh & ih & inn & il & _ & _ & _ & _ & _ & Ex & E1 & E2 & Hno & Hyes).
  split; [|split; [|split; assumption]].
  - intro Hf. apply Hno. rewrite Hf in Ex.
    symmetry in Ex. apply negb_false_iff in Ex. apply Z.eqb_eq. exact Ex.
  - intro Ht. rewrite Ht in Ex. symmetry in Ex. apply negb_true_iff in Ex.
    apply Z.eqb_neq in Ex.
    destruct (Hyes Ex) as (xl & xn & xh & _ & _ & _ & -> & -> & ->).
    repeat split; discriminate.
Qed.

Lemma compute_hints_all_or_nothing_witness :
  exists data,
    compute_hints Ha_to_eV_example ecut_list_example series_oscillating
      atols_mev_example pseudo_example 1 = Ok data /\
    exit data = false /\ ecut (high data) = None /\ etotal data = series_oscillating.
Proof.
  eexists. split; [vm_compute; reflexivity|].
  split; [reflexivity|].
  destruct (compute_hints_all_or_nothing Ha_to_eV_example ecut_list_example
              series_oscillating atols_mev_example pseudo_example 1 _
              ltac:(vm_compute; reflexivity)) as (Hno & _ & He & _).
  split; [apply Hno; reflexivity|exact He].
Defined.

(** X12.  With a positive [Ha_to_eV] and tolerances ordered
    high <= normal <= low, whenever [compute_hints] returns with [exit]
    true the normal and the low tier have converged too, the three
    indices satisfy 1 <= low <= normal <= high, and each entry holds the
    parameter at its own index of [ecut_list]. *)
Theorem compute_hints_tiers_ordered (Ha_to_eV : Q) (ecuts etot : list Q)
    (a_low a_normal a_high : Q) (pseudo : Pseudo) (min_numpts : Z) (data : Hints) :
  (0 < Ha_to_eV)%Q -> (a_high <= a_normal)%Q -> (a_normal <= a_low)%Q ->
  compute_hints Ha_to_eV ecuts etot (a_low, a_normal, a_high) pseudo min_numpts
  = Ok data ->
  exit data = true ->
  exists ilow inormal ihigh : nat,
    check_conv etot (a_low / (1000 * Ha_to_eV))%Q 1 "abs" None = Ok (Z.of_nat ilow) /\
    check_conv etot (a_normal / (1000 * Ha_to_eV))%Q 1 "abs" None
    = Ok (Z.of_nat inormal) /\
    check_conv etot (a_high / (1000 * Ha_to_eV))%Q min_numpts "abs" None
    = Ok (Z.of_nat ihigh) /\
    (1 <= ilow <= inormal)%nat /\ (inormal <= ihigh)%nat /\
    (ihigh < length ecuts)%nat /\
    ecut (low data) = Some (nth ilow ecuts 0%Q) /\
    ecut (normal data) = Some (nth inormal ecuts 0%Q) /\
    ecut (high data) = Some (nth ihigh ecuts 0%Q).
Proof.
  intros Hpos Hhn Hnl H Hx.
  assert (Hc := scale_pos Ha_to_eV Hpos).
  destruct (compute_hints_inv _ _ _ _ _ _ _ H)
    as (dl & dn & dh & ih & inn & il & Et & Hne & Eh & En & El & Ex & _ & _ & _ & Hyes).
  rewrite (tolerances_pos _ _ _ _ Hpos) in Et. injection Et as <- <- <-.
  rewrite Hx in Ex. symmetry in Ex. apply negb_true_iff in Ex. apply Z.eqb_neq in Ex.
  destruct (Hyes Ex) as (xl & xn & xh & Gl & Gn & Gh & -> & -> & ->).
  rewrite (check_conv_abs_default etot _ _ Hne) in Eh.
  rewrite (check_conv_abs_default etot _ _ Hne) in En.
  rewrite (check_conv_abs_default etot _ _ Hne) in El.
  destruct (conv_index_looser etot _ _ min_numpts 1 ih Hne
              (Qdiv_le_compat _ _ _ Hc Hhn) (or_intror (Z.le_refl 1)) Eh Ex)
    as (rn & En' & Hrn).
  rewrite En in En'. injection En' as <-.
  destruct (conv_index_looser etot _ _ 1 1 inn Hne
              (Qdiv_le_compat _ _ _ Hc Hnl) (or_intror (Z.le_refl 1)) En
              ltac:(lia)) as (rl & El' & Hrl).
  rewrite El in El'. injection El' as <-.
  destruct (py_getitem_nonneg_inv ecuts 0%Q xl il ltac:(lia) Gl) as [_ ->].
  destruct (py_getitem_nonneg_inv ecuts 0%Q xn inn ltac:(lia) Gn) as [_ ->].
  destruct (py_getitem_nonneg_inv ecuts 0%Q xh ih ltac:(lia) Gh) as [Hb ->].
  exists (Z.to_nat il), (Z.to_nat inn), (Z.to_nat ih).
  rewrite (check_conv_abs_default etot (a_low / _)%Q _ Hne).
  rewrite (check_conv_abs_default etot (a_normal / _)%Q _ Hne).
  rewrite (check_conv_abs_default etot (a_high / _)%Q _ Hne).
  rewrite !Z2Nat.id by lia.
  repeat split; try assumption; try reflexivity; lia.
Qed.

Lemma compute_hints_tiers_ordered_witness :
  exists (data : Hints) (ilow inormal ihigh : nat),
    compute_hints Ha_to_eV_example ecut_list_example etotal_example
      (10, 1, 1 # 10)%Q pseudo_example 2 = Ok data /\
    (1 <= ilow <= inormal)%nat /\ (inormal <= ihigh)%nat /\
    ecut (low data) = Some (nth ilow ecut_list_example 0%Q) /\
    ecut (high data) = Some (nth ihigh ecut_list_example 0%Q).
Proof.
  eexists.
  destruct (compute_hints_tiers_ordered Ha_to_eV_example ecut_list_example
              etotal_example 10%Q 1%Q (1 # 10)%Q pseudo_example 2 _
              ltac:(reflexivity)
              ltac:(apply Qle_bool_iff; reflexivity)
              ltac:(apply Qle_bool_iff; reflexivity)
              ltac:(vm_compute; reflexivity)
              ltac:(reflexivity))
    as (il & inn & ih & _ & _ & _ & O1 & O2 & _ & Gl & _ & Gh).
  exists il, inn, ih. split; [reflexivity|].
  split; [exact O1|]. split; [exact O2|]. split; [exact Gl|exact Gh].
Defined.

(** X13.  [compute_hints] indexes [ecut_list] with the index of every
    tier as soon as the high tier has converged.  A normal or low tier
    that has not converged has the index -1, which Python reads from the
    end: the entry of that tier is then the last parameter of
    [ecut_list], not [None]. *)
Theorem compute_hints_unconverged_tier (Ha_to_eV : Q) (ecuts etot : list Q)
    (atols : Q * Q * Q) (pseudo : Pseudo) (min_numpts : Z) (data : Hints)
    (de_low de_normal de_high : Q) :
  compute_hints Ha_to_eV ecuts etot atols pseudo min_numpts = Ok data ->
  exit data = true ->
  tolerances Ha_to_eV atols = Ok (de_low, de_normal, de_high) ->
  (check_conv etot de_low 1 "abs" None = Ok (-1) ->
   ecut (low data) = Some (last ecuts 0%Q)) /\
  (check_conv etot de_normal 1 "abs" None = Ok (-1) ->
   ecut (normal data) = Some (last ecuts 0%Q)).
Proof.
  intros H Hx Ht.
  destruct (compute_hints_inv _ _ _ _ _ _ _ H)
    as (dl & dn & dh & ih & inn & il & Et & _ & _ & En & El & Ex & _ & _ & _ & Hyes).
  rewrite Ht in Et. injection Et as <- <- <-.
  rewrite Hx in Ex. symmetry in Ex. apply negb_true_iff in Ex. apply Z.eqb_neq in Ex.
  destruct (Hyes Ex) as (xl & xn & xh & Gl & Gn & _ & -> & -> & _).
  split; intro Hc.
  - rewrite Hc in El. injection El as <-.
    destruct (py_getitem_last_inv ecuts 0%Q xl Gl) as [_ ->]. reflexivity.
  - rewrite Hc in En. injection En as <-.
    destruct (py_getitem_last_inv ecuts 0%Q xn Gn) as [_ ->]. reflexivity.
Qed.

Lemma compute_hints_unconverged_tier_witness :
  exists data,
    compute_hints Ha_to_eV_example ecut_list_example etotal_example
      (1 # 1000, 1, 10)%Q pseudo_example 1 = Ok data /\
    exit data = true /\
    ecut (low data) = Some 60%Q /\ ecut (high data) = Some 30%Q.
Proof.
  eexists. split; [vm_compute; reflexivity|]. split; [reflexivity|].
  split; [|reflexivity].
  refine (proj1 (compute_hints_unconverged_tier Ha_to_eV_example ecut_list_example
                   etotal_example (1 # 1000, 1, 10)%Q pseudo_example 1 _ _ _ _
                   ltac:(vm_compute; reflexivity) ltac:(reflexivity)
                   ltac:(reflexivity)) _).
  vm_compute. reflexivity.
Defined.

Lemma py_getitem_nil {A} (i : Z) : py_getitem (@nil A) i = Raise IndexError.
Proof.
  unfold py_getitem. simpl length.
  destruct (i <? 0) eqn:E.
  - apply Z.ltb_lt in E.
    destruct (Z.of_nat 0 + i <? 0) eqn:E2; [reflexivity|apply Z.ltb_ge in E2; lia].
  - apply Z.ltb_ge in E.
    destruct (Z.of_nat 0 <=? i) eqn:E2; [|apply Z.leb_gt in E2; lia].
    rewrite orb_true_r. reflexivity.
Qed.

(** X14.  Failures of [compute_hints].  With [Ha_to_eV] zero the
    conversion of the tolerances raises ZeroDivisionError before anything
    else is looked at; otherwise an empty list of energies raises
    IndexError; and with an empty [ecut_list] the call returns only when
    the high tier has not converged ([exit] false). *)
Theorem compute_hints_failures (Ha_to_eV : Q) (ecuts etot : list Q)
    (atols : Q * Q * Q) (pseudo : Pseudo) (min_numpts : Z) :
  ((Ha_to_eV == 0)%Q ->
   compute_hints Ha_to_eV ecuts etot atols pseudo min_numpts
   = Raise ZeroDivisionError) /\
  (~ (Ha_to_eV == 0)%Q ->
   compute_hints Ha_to_eV ecuts [] atols pseudo min_numpts = Raise IndexError) /\
  (forall data,
     compute_hints Ha_to_eV [] etot atols pseudo min_numpts = Ok data ->
     exit data = false).
Proof.
  split; [|split].
  - intro Hz. unfold compute_hints, tolerances.
    destruct atols as [[a_low a_normal] a_high]. unfold py_div at 1.
    assert (E : Qeq_bool (1000 * Ha_to_eV) 0 = true).
    { apply Qeq_bool_iff. rewrite Hz. ring. }
    rewrite E. reflexivity.
  - intro Hnz. unfold compute_hints, tolerances.
    destruct atols as [[a_low a_normal] a_high]. unfold py_div.
    assert (E : Qeq_bool (1000 * Ha_to_eV) 0 = false).
    { destruct (Qeq_bool (1000 * Ha_to_eV) 0) eqn:E; [|reflexivity].
      apply Qeq_bool_iff in E. exfalso. apply Hnz.
      apply (Qmult_inj_l _ _ 1000); [discriminate|]. rewrite E. ring. }
    rewrite E. reflexivity.
  - intros data H.
    destruct (compute_hints_inv _ _ _ _ _ _ _ H)
      as (dl & dn & dh & ih & inn & il & _ & _ & _ & _ & _ & Ex & _ & _ & _ & Hyes).
    rewrite Ex. destruct (Z.eq_dec ih (-1)) as [->|Hne]; [reflexivity|].
    destruct (Hyes Hne) as (xl & _ & _ & Gl & _).
    rewrite py_getitem_nil in Gl. discriminate.
Qed.

Lemma compute_hints_failures_witness :
  compute_hints 0%Q ecut_list_example etotal_example atols_mev_example
    pseudo_example 1 = Raise ZeroDivisionError /\
  compute_hints Ha_to_eV_example ecut_list_example [] atols_mev_example
    pseudo_example 1 = Raise IndexError.
Proof.
  split.
  - apply (proj1 (compute_hints_failures 0%Q ecut_list_example etotal_example
                    atols_mev_example pseudo_example 1)). reflexivity.
  - apply (proj1 (proj2 (compute_hints_failures Ha_to_eV_example ecut_list_example
                           etotal_example atols_mev_example pseudo_example 1))).
    discriminate.
Defined.

(** ** WorkFlowResults: more on push_exceptions *)

Lemma push_exception_step (r : WorkFlowResults) (e : PyExc) :
  items (push_exception r e) = items r /\
  exceptions (push_exception r e)
  = exceptions r ++ (if str_in (str e) (exceptions r) then [] else [str e]).
Proof.
  unfold push_exception.
  destruct (str_in (str e) (exceptions r)); simpl.
  - split; [reflexivity|]. symmetry. apply app_nil_r.
  - split; reflexivity.
Qed.

Lemma push_exceptions_all_known (es : list PyExc) : forall r : WorkFlowResults,
  (forall e, In e es -> In (str e) (exceptions r)) ->
  push_exceptions r es = r.
Proof.
  induction es as [|e tl IH]; intros r H; [reflexivity|].
  unfold push_exceptions. simpl fold_left.
  rewrite push_exception_known by (apply H; left; reflexivity).
  apply IH. intros e' He'. apply H. right. exact He'.
Qed.

(** X15.  [push_exceptions] only ever appends to the list of exceptions:
    the other items of the dictionary are untouched, the old list is a
    prefix of the new one, the new list holds exactly the old strings and
    the strings of the arguments, and a list without duplicates stays
    without duplicates. *)
Theorem push_exceptions_appends (es : list PyExc) : forall r : WorkFlowResults,
  items (push_exceptions r es) = items r /\
  (exists added, exceptions (push_exceptions r es) = exceptions r ++ added) /\
  (forall s, In s (exceptions (push_exceptions r es)) <->
             In s (exceptions r) \/ In s (map str es)) /\
  (NoDup (exceptions r) -> NoDup (exceptions (push_exceptions r es))).
Proof.
  induction es as [|e tl IH]; intro r.
  - simpl. split; [reflexivity|]. split; [exists []; symmetry; apply app_nil_r|].
    split; [intro s; tauto|tauto].
  - unfold push_exceptions. simpl fold_left.
    change (fold_left push_exception tl ?x) with (push_exceptions x tl).
    destruct (IH (push_exception r e)) as (Hi & (added & Ha) & Hin & Hnd).
    destruct (push_exception_step r e) as (Si & Se).
    split; [congruence|]. split; [|split].
    + rewrite Ha, Se, <- app_assoc. eexists. reflexivity.
    + intro s. rewrite Hin, Se, in_app_iff. simpl.
      destruct (str_in (str e) (exceptions r)) eqn:E; simpl.
      * apply str_in_iff in E. split; [tauto|].
        intros [H|[H|H]]; [tauto|subst s; tauto|tauto].
      * tauto.
    + intro Hr. apply Hnd. rewrite Se.
      destruct (str_in (str e) (exceptions r)) eqn:E.
      * rewrite app_nil_r. exact Hr.
      * apply NoDup_app; [exact Hr|repeat constructor; intros []|].
        intros s Hs [<-|[]]. apply str_in_iff in Hs. congruence.
Qed.

Lemma push_exceptions_appends_witness :
  NoDup (exceptions (push_exceptions results_example
                       [ExcObj 1 "boom"; StrObj "boom"; ExcObj 2 "bang"])).
Proof.
  apply (proj2 (proj2 (proj2 (push_exceptions_appends
                                [ExcObj 1 "boom"; StrObj "boom"; ExcObj 2 "bang"]
                                results_example)))).
  simpl. repeat constructor. intros [].
Defined.

(** X16.  Pushing a batch of exceptions a second time changes nothing,
    and pushing two batches one after the other is pushing their
    concatenation. *)
Theorem push_exceptions_idempotent (r : WorkFlowResults) (es es' : list PyExc) :
  push_exceptions (push_exceptions r es) es = push_exceptions r es /\
  push_exceptions (push_exceptions r es) es' = push_exceptions r (es ++ es').
Proof.
  split.
  - apply push_exceptions_all_known. intros e He.
    assert (G : forall (l : list PyExc) (r0 : WorkFlowResults) s,
               In s (exceptions r0) \/ In s (map str l) ->
               In s (exceptions (push_exceptions r0 l))).
    { induction l as [|x tl IH]; intros r0 s [H|H]; simpl in *; try tauto.
      - apply IH. left. destruct (push_exception_step r0 x) as [_ ->].
        apply in_or_app. left. exact H.
      - destruct H as [<-|H].
        + apply IH. left. apply push_exception_records.
        + apply IH. right. exact H. }
    apply G. right. apply in_map. exact He.
  - unfold push_exceptions. symmetry. apply fold_left_app.
Qed.

(** ** WorkFlowResults: to_dict and from_dict *)

Lemma dict_get_set_same (d : PyDict) (k : string) (v : PyVal) :
  dict_get (dict_set d k v) k = Some v.
Proof.
  induction d as [|[k0 v0] tl IH]; simpl.
  - rewrite String.eqb_refl. reflexivity.
  - destruct (String.eqb k0 k) eqn:E; simpl; rewrite E; [reflexivity|exact IH].
Qed.

Lemma dict_get_set_other (d : PyDict) (k k' : string) (v : PyVal) :
  k <> k' -> dict_get (dict_set d k v) k' = dict_get d k'.
Proof.
  intro Hne. induction d as [|[k0 v0] tl IH]; simpl.
  - apply String.eqb_neq in Hne. rewrite Hne. reflexivity.
  - destruct (String.eqb k0 k) eqn:E; simpl.
    + apply String.eqb_eq in E. subst k0.
      apply String.eqb_neq in Hne. rewrite Hne. reflexivity.
    + rewrite IH. reflexivity.
Qed.

Lemma dict_get_filter (p : string -> bool) (d : PyDict) (k : string) :
  dict_get (filter (fun kv => p (fst kv)) d) k
  = if p k then dict_get d k else None.
Proof.
  induction d as [|[k0 v0] tl IH]; simpl.
  - destruct (p k); reflexivity.
  - destruct (p k0) eqn:E0; simpl.
    + destruct (String.eqb k0 k) eqn:E.
      * apply String.eqb_eq in E. subst k0. rewrite E0. reflexivity.
      * exact IH.
    + rewrite IH. destruct (p k) eqn:Ek; [|reflexivity].
      destruct (String.eqb k0 k) eqn:E; [|reflexivity].
      apply String.eqb_eq in E. subst k0. congruence.
Qed.

(** Every key of the dictionary that [from_dict] makes of a [to_dict]. *)
Lemma from_dict_to_dict_get (m c : string) (d : PyDict) (k : string) :
  dict_get (from_dict (to_dict m c d)) k
  = if existsb (String.eqb k) ["@module"; "@class"] then None
    else if String.eqb k "_exceptions"
         then Some (match dict_get d "_exceptions" with
                    | Some v => v
                    | None => VList []
                    end)
         else dict_get d k.
Proof.
  set (p := fun k0 : string => negb (existsb (String.eqb k0) ["@module"; "@class"])).
  assert (Hf : forall k0,
             dict_get (filter (fun kv => p (fst kv)) (to_dict m c d)) k0
             = if p k0 then dict_get d k0 else None).
  { intro k0. rewrite dict_get_filter. destruct (p k0) eqn:E; [|reflexivity].
    unfold p in E. simpl in E. rewrite orb_false_r in E.
    apply negb_true_iff, orb_false_iff in E. destruct E as [E1 E2].
    apply String.eqb_neq in E1, E2. unfold to_dict.
    rewrite !dict_get_set_other by congruence. reflexivity. }
  change (from_dict (to_dict m c d))
    with (WorkFlowResults_init (filter (fun kv => p (fst kv)) (to_dict m c d))).
  unfold WorkFlowResults_init.
  rewrite (Hf "_exceptions"). change (p "_exceptions") with true. cbv iota.
  assert (Hp : existsb (String.eqb k) ["@module"; "@class"] = negb (p k))
    by (unfold p; rewrite negb_involutive; reflexivity).
  rewrite Hp.
  destruct (dict_get d "_exceptions") as [v|] eqn:Ee.
  - rewrite Hf. destruct (p k) eqn:Ep; simpl; [|reflexivity].
    destruct (String.eqb k "_exceptions") eqn:E; [|reflexivity].
    apply String.eqb_eq in E. subst k. exact Ee.
  - destruct (String.eqb k "_exceptions") eqn:E.
    + apply String.eqb_eq in E. subst k. rewrite dict_get_set_same. reflexivity.
    + apply String.eqb_neq in E. rewrite dict_get_set_other by congruence.
      rewrite Hf. destruct (p k); reflexivity.
Qed.

(** X17.  [from_dict] undoes [to_dict]: for a results dictionary that has
    its list of exceptions (as the constructor makes sure) and no keys
    ["@module"] and ["@class"] of its own, every key reads the same after
    the round trip.  Keys ["@module"] and ["@class"] never survive the
    round trip, and the key ["_exceptions"] is always there afterwards. *)
Theorem results_dict_round_trip (module_name class_name : string) (d : PyDict) :
  (dict_get d "_exceptions" <> None ->
   dict_get d "@module" = None -> dict_get d "@class" = None ->
   forall key, dict_get (from_dict (to_dict module_name class_name d)) key
               = dict_get d key) /\
  dict_get (from_dict (to_dict module_name class_name d)) "@module" = None /\
  dict_get (from_dict (to_dict module_name class_name d)) "@class" = None /\
  dict_get (from_dict (to_dict module_name class_name d)) "_exceptions" <> None.
Proof.
  split; [|split; [|split]]; try (rewrite from_dict_to_dict_get; reflexivity).
  - intros He Hm Hc key. rewrite from_dict_to_dict_get. simpl existsb.
    destruct (String.eqb key "@module") eqn:E1.
    { apply String.eqb_eq in E1. subst key. symmetry. exact Hm. }
    destruct (String.eqb key "@class") eqn:E2.
    { apply String.eqb_eq in E2. subst key. symmetry. exact Hc. }
    simpl. destruct (String.eqb key "_exceptions") eqn:E3; [|reflexivity].
    apply String.eqb_eq in E3. subst key.
    destruct (dict_get d "_exceptions"); [reflexivity|congruence].
  - rewrite from_dict_to_dict_get. simpl. discriminate.
Qed.

Lemma results_dict_round_trip_witness :
  dict_get (from_dict (to_dict "pymatgen.io.abinitio.workflow" "WorkFlowResults"
                         [("task_results", VOther "{}");
                          ("_exceptions", VList ["boom"])])) "_exceptions"
  = dict_get [("task_results", VOther "{}"); ("_exceptions", VList ["boom"])]
             "_exceptions".
Proof.
  apply (proj1 (results_dict_round_trip "pymatgen.io.abinitio.workflow"
                  "WorkFlowResults"
                  [("task_results", VOther "{}"); ("_exceptions", VList ["boom"])]));
    [discriminate|reflexivity|reflexivity].
Defined.

(** ** Workflow: all_done and the CPU counters *)

Lemma total_nonneg (sel : list Z) (ts : list Task) :
  (forall task, In task ts -> 0 <= tot_ncpus task) -> 0 <= total sel ts.
Proof.
  induction ts as [|t tl IH]; intro H; simpl; [lia|].
  assert (0 <= share sel t).
  { unfold share. destruct (existsb _ sel); [apply H; left; reflexivity|lia]. }
  assert (0 <= total sel tl) by (apply IH; intros x Hx; apply H; right; exact Hx).
  lia.
Qed.

Lemma total_subset (sel sel' : list Z) (ts : list Task) :
  (forall s, In s sel -> In s sel') ->
  (forall task, In task ts -> 0 <= tot_ncpus task) ->
  total sel ts <= total sel' ts.
Proof.
  intros Hsub. induction ts as [|t tl IH]; intro H; simpl; [lia|].
  assert (share sel t <= share sel' t).
  { unfold share. destruct (existsb (Z.eqb (status t)) sel) eqn:E.
    - apply existsb_exists in E. destruct E as (s & Hs & Es).
      assert (E' : existsb (Z.eqb (status t)) sel' = true)
        by (apply existsb_exists; exists s; split; [apply Hsub; exact Hs|exact Es]).
      rewrite E'. lia.
    - destruct (existsb _ sel'); [apply H; left; reflexivity|lia]. }
  assert (total sel tl <= total sel' tl) by (apply IH; intros x Hx; apply H; right; exact Hx).
  lia.
Qed.

(** X18.  When no task needs a negative number of CPUs, the counters are
    ordered whatever the status codes are:
    [0 <= ncpus_reserved <= ncpus_allocated] and
    [0 <= ncpus_inuse <= ncpus_allocated]. *)
Theorem ncpus_bounds {api : Collaborators} (w : Workflow) :
  (forall task, In task (_tasks w) -> 0 <= tot_ncpus task) ->
  0 <= ncpus_reserved w <= ncpus_allocated w /\
  0 <= ncpus_inuse w <= ncpus_allocated w.
Proof.
  intro H.
  rewrite ncpus_allocated_total, ncpus_reserved_total, ncpus_inuse_total.
  repeat split; try (apply total_nonneg; exact H);
    apply total_subset; try exact H; intros s [<-|[]]; simpl; tauto.
Qed.

Lemma ncpus_bounds_witness :
  0 <= @ncpus_reserved example_api workflow_example
    <= @ncpus_allocated example_api workflow_example.
Proof.
  apply (@ncpus_bounds example_api workflow_example).
  intros task [<-|[<-|[<-|[]]]]; simpl; lia.
Defined.

(** X19.  [all_done] holds exactly when the smallest status of the tasks
    is at least DONE (for a workflow with tasks; without tasks it is
    true); and when SUB and RUN lie below DONE, a workflow that is
    [all_done] has no CPU reserved, allocated or in use. *)
Theorem all_done_min_and_counters {api : Collaborators} (w : Workflow) :
  (_tasks w = [] -> all_done w = true) /\
  (forall m, py_min (map status (_tasks w)) = Ok m ->
             (all_done w = true <-> S_DONE <= m)) /\
  (S_SUB < S_DONE -> S_RUN < S_DONE -> all_done w = true ->
   ncpus_reserved w = 0 /\ ncpus_allocated w = 0 /\ ncpus_inuse w = 0).
Proof.
  unfold all_done. split; [|split].
  - intros ->. reflexivity.
  - intros m Hm.
    assert (Hne : map status (_tasks w) <> []) by (intro E; rewrite E in Hm; discriminate).
    destruct (py_min_spec _ Hne) as (m' & Em & Hin & Hall).
    rewrite Em in Hm. injection Hm as <-.
    rewrite forallb_forall. split.
    + intro H. apply in_map_iff in Hin. destruct Hin as (t & <- & Ht).
      apply Z.leb_le. apply H. exact Ht.
    + intros H t Ht. apply Z.leb_le.
      assert (m' <= status t) by (apply Hall; apply in_map; exact Ht). lia.
  - intros H1 H2 Hd.
    rewrite ncpus_allocated_total, ncpus_reserved_total, ncpus_inuse_total.
    rewrite forallb_forall in Hd.
    assert (G : forall sel, (forall s, In s sel -> s < S_DONE) ->
                            total sel (_tasks w) = 0).
    { intros sel Hsel. induction (_tasks w) as [|t tl IH]; [reflexivity|].
      simpl. rewrite IH by (intros x Hx; apply Hd; right; exact Hx).
      unfold share. destruct (existsb (Z.eqb (status t)) sel) eqn:E; [|reflexivity].
      apply existsb_exists in E. destruct E as (s & Hs & Es).
      apply Z.eqb_eq in Es. specialize (Hsel s Hs).
      assert (S_DONE <= status t) by (apply Z.leb_le; apply Hd; left; reflexivity).
      lia. }
    repeat split; apply G; simpl; intros s Hs; intuition (subst; assumption).
Qed.

Lemma all_done_min_and_counters_witness :
  @ncpus_allocated example_api
     {| _tasks := [ {| task_id := 0; status := 5; tot_ncpus := 4; links := [] |};
                    {| task_id := 1; status := 4; tot_ncpus := 8; links := [] |} ];
        _links_dict := []; log := [] |} = 0.
Proof.
  apply (proj2 (proj2 (@all_done_min_and_counters example_api _)));
    [simpl; lia|simpl; lia|reflexivity].
Defined.

(** ** Workflow: the empty workflow *)

(** X20.  A workflow without tasks: [fetch_task_to_run] raises
    StopIteration (all of no tasks are completed), reading [status]
    raises the ValueError of [min] on an empty list, [check_status]
    changes nothing and the three CPU counters are 0; all this whatever
    the collaborators do. *)
Theorem empty_workflow {api : Collaborators} (w : Workflow) :
  _tasks w = [] ->
  fst (fetch_task_to_run w) = Raise StopIteration /\
  (exists msg, fst (Workflow_status w) = Raise (ValueError msg)) /\
  _tasks (check_status w) = [] /\
  log (snd (fetch_task_to_run w)) = log w /\
  ncpus_reserved w = 0 /\ ncpus_allocated w = 0 /\ ncpus_inuse w = 0.
Proof.
  intro E.
  unfold fetch_task_to_run, Workflow_status, get_all_status, check_status,
    ncpus_reserved, ncpus_allocated, ncpus_inuse.
  rewrite E. simpl.
  repeat split; try reflexivity. eexists. reflexivity.
Qed.

Lemma empty_workflow_witness :
  fst (@fetch_task_to_run example_api {| _tasks := []; _links_dict := []; log := [] |})
  = Raise StopIteration.
Proof.
  apply (@empty_workflow example_api {| _tasks := []; _links_dict := []; log := [] |}).
  reflexivity.
Defined.

(** ** check_status: the second loop *)

Lemma nth_error_ext_eq {A} (l1 l2 : list A) :
  (forall j, nth_error l1 j = nth_error l2 j) -> l1 = l2.
Proof.
  revert l2. induction l1 as [|x tl IH]; intros [|y tl2] H.
  - reflexivity.
  - specialize (H 0%nat). discriminate.
  - specialize (H 0%nat). discriminate.
  - assert (H0 := H 0%nat). simpl in H0. injection H0 as ->.
    f_equal. apply IH. intro j. exact (H (S j)).
Qed.

(** X23.  With READY <= SUB < OK the second loop of [check_status]
    reaches a fixed point in one run: running it again on its own result
    changes nothing. *)
Theorem promote_all_idempotent {api : Collaborators} (s : list Task) :
  S_READY <= S_SUB -> S_SUB < S_OK ->
  promote_all (promote_all s) = promote_all s.
Proof.
  intros H1 H2. apply nth_error_ext_eq. intro j.
  rewrite !(promote_all_snapshot H1 H2).
  destruct (nth_error s j) as [t|]; [|reflexivity]. simpl. f_equal.
  assert (Hall : forall t', all_ok (promote_all s) t' = all_ok s t')
    by (intro t'; apply (all_ok_promote_all H1 H2)).
  unfold promote at 1. rewrite Hall.
  unfold promote.
  destruct (status t <=? S_SUB) eqn:E; simpl.
  - destruct (all_ok s t) eqn:Ea.
    + simpl. change (all_ok s (set_status t S_READY)) with (all_ok s t).
      rewrite Ea.
      destruct (S_READY <=? S_SUB) eqn:Er; [reflexivity|apply Z.leb_gt in Er; lia].
    + rewrite E, Ea. reflexivity.
  - rewrite E. reflexivity.
Qed.

Lemma promote_all_idempotent_witness :
  @promote_all example_api (@promote_all example_api tasks_example)
  = @promote_all example_api tasks_example.
Proof.
  apply (@promote_all_idempotent example_api tasks_example); simpl; lia.
Defined.

(** ** status_counter and read_etotal *)

Lemma counter_get_incr (c : Counter) (k key : string) :
  counter_get (counter_incr c k) key
  = counter_get c key + (if String.eqb k key then 1 else 0).
Proof.
  induction c as [|[k0 n] tl IH]; simpl.
  - destruct (String.eqb k key); reflexivity.
  - destruct (String.eqb k0 k) eqn:E; simpl.
    + apply String.eqb_eq in E. subst k0.
      destruct (String.eqb k key); lia.
    + destruct (String.eqb k0 key) eqn:E2; [|exact IH].
      destruct (String.eqb k key) eqn:E3; [|lia].
      apply String.eqb_eq in E2, E3. subst. rewrite String.eqb_refl in E. discriminate.
Qed.

Lemma counter_sum_incr (c : Counter) (k : string) :
  fold_right Z.add 0 (map snd (counter_incr c k))
  = fold_right Z.add 0 (map snd c) + 1.
Proof.
  induction c as [|[k0 n] tl IH]; simpl; [reflexivity|].
  destruct (String.eqb k0 k); simpl; lia.
Qed.

(** X24.  [status_counter] counts, for every key, the tasks whose
    [str_status] is that key (0 for a status no task has), and its counts
    add up to the number of tasks. *)
Theorem status_counter_counts (str_status : Task -> string) (w : Workflow) :
  (forall key,
     counter_get (status_counter str_status w) key
     = Z.of_nat (length (filter (fun task => String.eqb (str_status task) key)
                                (_tasks w)))) /\
  fold_right Z.add 0 (map snd (status_counter str_status w))
  = Z.of_nat (length (_tasks w)).
Proof.
  unfold status_counter.
  assert (G : forall ts c,
    (forall key,
       counter_get (fold_left (fun counter task =>
                                 counter_incr counter (str_status task)) ts c) key
       = counter_get c key
         + Z.of_nat (length (filter (fun task => String.eqb (str_status task) key) ts)))
    /\ fold_right Z.add 0
         (map snd (fold_left (fun counter task =>
                                counter_incr counter (str_status task)) ts c))
       = fold_right Z.add 0 (map snd c) + Z.of_nat (length ts)).
  { induction ts as [|t tl IH]; intro c; simpl.
    - split; [intro key|]; lia.
    - destruct (IH (counter_incr c (str_status t))) as [IH1 IH2]. split.
      + intro key. rewrite IH1, counter_get_incr.
        destruct (String.eqb (str_status t) key); simpl length; lia.
      + rewrite IH2, counter_sum_incr. lia. }
  destruct (G (_tasks w) []) as [G1 G2]. split.
  - intro key. rewrite G1. reflexivity.
  - rewrite G2. reflexivity.
Qed.

Lemma mapM_inv {A B} (f : A -> result B) (l : list A) : forall ys,
  mapM f l = Ok ys -> Forall2 (fun x y => f x = Ok y) l ys.
Proof.
  induction l as [|x tl IH]; intros ys H; simpl in H.
  - injection H as <-. constructor.
  - destruct (f x) as [y|e] eqn:E; cbn [bind] in H; [|discriminate].
    destruct (mapM f tl) as [ys'|e]; cbn [bind] in H; [|discriminate].
    injection H as <-. constructor; [exact E|apply IH; reflexivity].
Qed.

(** X25.  [read_etotal] reads no file while a task is unfinished: when
    [all_done] is false it raises the workflow's error; and a list it
    returns has one energy per task, in the order of the tasks, each the
    value read for that task. *)
Theorem read_etotal_guarded {api : Collaborators}
    (read_etotal_of : Task -> result Q) (w : Workflow) :
  (all_done w = false ->
   exists msg, read_etotal read_etotal_of w = WorkflowError msg) /\
  (forall etotal,
     read_etotal read_etotal_of w = EtotalList etotal ->
     all_done w = true /\
     Forall2 (fun task e => read_etotal_of task = Ok e) (_tasks w) etotal).
Proof.
  unfold read_etotal. split.
  - intros ->. eexists. reflexivity.
  - intros etotal H. destruct (all_done w); [|discriminate].
    split; [reflexivity|]. simpl in H.
    destruct (mapM read_etotal_of (_tasks w)) as [ys|e] eqn:E; [|discriminate].
    injection H as <-. apply mapM_inv. exact E.
Qed.

Lemma read_etotal_guarded_witness :
  exists msg,
    @read_etotal example_api (fun _ => Ok 0%Q) workflow_example = WorkflowError msg.
Proof.
  apply (proj1 (@read_etotal_guarded example_api (fun _ => Ok 0%Q) workflow_example)).
  reflexivity.
Defined.

(** ** register: the dependency dictionary *)

Lemma register_inv {api : Collaborators} (w w' : Workflow) (obj : PyObj)
    (links : list Link) (r : result Link) :
  register w obj links = (r, w') ->
  (forall e, r = Raise e -> w' = w) /\
  (forall lk, r = Ok lk ->
     lk = {| node := length (_tasks w); products := [] |} /\
     (exists task, _tasks w' = _tasks w ++ [task]) /\
     log w' = log w /\
     _links_dict w'
     = match links with
       | [] => _links_dict w
       | _ => links_dict_extend (_links_dict w) (Z.of_nat (length (_tasks w))) links
       end).
Proof.
  unfold register.
  destruct (if is_Strategy obj then _ else _) as [task|e];
    intro H; injection H as <- <-; (split; [intros e' He'|intros lk Hlk]);
    try discriminate; try reflexivity.
  injection Hlk as <-. simpl.
  split; [reflexivity|]. split; [exists task; reflexivity|]. split; reflexivity.
Qed.

Lemma links_dict_extend_fresh (d : list (Z * list Link)) (k : Z) (ls : list Link) :
  ~ In k (map fst d) -> links_dict_extend d k ls = d ++ [(k, ls)].
Proof.
  induction d as [|[k0 v] tl IH]; intro H; simpl; [reflexivity|].
  destruct (k0 =? k) eqn:E.
  - apply Z.eqb_eq in E. exfalso. apply H. left. exact E.
  - rewrite IH; [reflexivity|]. intro Hin. apply H. right. exact Hin.
Qed.

(** X26.  [register] keeps the recorded dependencies well formed.  If
    they are well formed before the call and every link handed in points
    to a task of the workflow, then after a call that returns: they are
    well formed, the old entries are still there, the links handed in (if
    any) are recorded under the position of the new task, and the link
    returned points to the new task, the last one of the workflow. *)
Theorem register_keeps_links_wf {api : Collaborators} (w w' : Workflow)
    (obj : PyObj) (links : list Link) (lk : Link) :
  links_dict_wf w ->
  (forall l, In l links -> (node l < length (_tasks w))%nat) ->
  register w obj links = (Ok lk, w') ->
  links_dict_wf w' /\
  node lk = length (_tasks w) /\ length (_tasks w') = S (length (_tasks w)) /\
  (forall k ls, In (k, ls) (_links_dict w) -> In (k, ls) (_links_dict w')) /\
  (links <> [] -> In (Z.of_nat (length (_tasks w)), links) (_links_dict w')).
Proof.
  intros [Hnd Hwf] Hlinks H.
  destruct (register_inv _ _ _ _ _ H) as [_ Hok].
  destruct (Hok lk eq_refl) as (-> & (task & Et) & _ & Ed).
  assert (Hlen : length (_tasks w') = S (length (_tasks w)))
    by (rewrite Et, length_app; simpl; lia).
  assert (Hfresh : ~ In (Z.of_nat (length (_tasks w))) (map fst (_links_dict w))).
  { intro Hin. apply in_map_iff in Hin. destruct Hin as ([k ls] & Ek & Hin).
    simpl in Ek. subst k. destruct (Hwf _ _ Hin) as [Hk _]. lia. }
  destruct links as [|l0 ltl].
  - unfold links_dict_wf. rewrite Ed.
    split; [|split; [reflexivity|split; [exact Hlen|split]]].
    + split; [exact Hnd|]. intros k ls Hin.
      destruct (Hwf k ls Hin) as (Hk & Hne & Hl). rewrite Hlen.
      split; [lia|]. split; assumption.
    + intros k ls Hin. exact Hin.
    + congruence.
  - rewrite (links_dict_extend_fresh _ _ _ Hfresh) in Ed.
    unfold links_dict_wf. rewrite Ed.
    split; [|split; [reflexivity|split; [exact Hlen|split]]].
    + split.
      * rewrite map_app. simpl. apply NoDup_app; [exact Hnd|repeat constructor; intros []|].
        intros k Hk [<-|[]]. exact (Hfresh Hk).
      * intros k ls Hin. apply in_app_or in Hin. rewrite Hlen.
        destruct Hin as [Hin|[Hin|[]]].
        -- destruct (Hwf k ls Hin) as (Hk & Hne & Hl).
           split; [lia|]. split; assumption.
        -- injection Hin as <- <-. split; [lia|]. split; [discriminate|].
           intros l Hl. specialize (Hlinks l Hl). lia.
    + intros k ls Hin. apply in_or_app. left. exact Hin.
    + intros _. apply in_or_app. right. left. reflexivity.
Qed.

Lemma register_keeps_links_wf_witness :
  links_dict_wf
    (snd (@register example_api workflow_example (StrategyObj "nscf")
            [{| node := 0; products := [] |}])).
Proof.
  refine (proj1 (@register_keeps_links_wf example_api workflow_example _
                   (StrategyObj "nscf") [{| node := 0; products := [] |}] _ _ _ _)).
  - split; [constructor|]. intros k ls [].
  - intros l [<-|[]]. simpl. lia.
  - reflexivity.
Defined.

(** ** Links and the GW workflow *)

(** A link made by [produces_exts] gives back, through
    [get_filepaths_and_exts], the extensions asked for, in their order,
    each with the path of that file of the node; it has the node of the
    link it was made from and nothing of that link's products, so asking
    again replaces the earlier request. *)
Lemma produces_exts_round_trip (odata_path_from_ext : nat -> string -> string)
    (link : Link) (exts exts' : list string) :
  get_filepaths_and_exts (produces_exts odata_path_from_ext link exts)
  = (map (odata_path_from_ext (node link)) exts, exts) /\
  node (produces_exts odata_path_from_ext link exts) = node link /\
  produces_exts odata_path_from_ext
    (produces_exts odata_path_from_ext link exts) exts'
  = produces_exts odata_path_from_ext link exts'.
Proof.
  unfold get_filepaths_and_exts, produces_exts, Link_init. simpl.
  rewrite !map_map. simpl. rewrite map_id.
  repeat split.
Qed.

(** X27.  [GW_Workflow.__init__] on a fresh workflow, when the four
    registrations succeed: the workflow has four tasks, the dependency
    dictionary says that task 1 (NSCF) needs the DEN file of task 0
    (SCF), task 2 (screening) the WFK file of task 1, and task 3 (sigma)
    the WFK file of task 1 and the SCR file of task 2; the dictionary is
    well formed, every link pointing to an earlier task. *)
Theorem GW_Workflow_dependencies {api : Collaborators}
    (odata_path_from_ext : nat -> string -> string)
    (w0 w : Workflow) (scf nscf scr sigma : PyObj) :
  _tasks w0 = [] -> _links_dict w0 = [] ->
  GW_Workflow_init odata_path_from_ext w0 scf nscf scr sigma = (Ok tt, w) ->
  length (_tasks w) = 4%nat /\
  _links_dict w
  = [ (1, [Link_init odata_path_from_ext 0 ["DEN"]]);
      (2, [Link_init odata_path_from_ext 1 ["WFK"]]);
      (3, [Link_init odata_path_from_ext 1 ["WFK"];
           Link_init odata_path_from_ext 2 ["SCR"]]) ] /\
  links_dict_wf w.
Proof.
  intros Et Ed. unfold GW_Workflow_init.
  destruct (register w0 scf []) as [[l1|e] w1] eqn:R1; [|discriminate].
  destruct (register_inv _ _ _ _ _ R1) as [_ H1].
  destruct (H1 l1 eq_refl) as (-> & (t1 & T1) & _ & D1).
  simpl in D1. rewrite Et in T1. rewrite Ed in D1. simpl in T1.
  destruct (register w1 nscf _) as [[l2|e] w2] eqn:R2; [|discriminate].
  destruct (register_inv _ _ _ _ _ R2) as [_ H2].
  destruct (H2 l2 eq_refl) as (-> & (t2 & T2) & _ & D2).
  rewrite T1 in T2, D2. rewrite D1 in D2. simpl in T2, D2.
  destruct (register w2 scr _) as [[l3|e] w3] eqn:R3; [|discriminate].
  destruct (register_inv _ _ _ _ _ R3) as [_ H3].
  destruct (H3 l3 eq_refl) as (-> & (t3 & T3) & _ & D3).
  rewrite T2 in T3, D3. rewrite D2 in D3. simpl in T3, D3.
  destruct (register w3 sigma _) as [[l4|e] w4] eqn:R4; [|discriminate].
  destruct (register_inv _ _ _ _ _ R4) as [_ H4].
  destruct (H4 l4 eq_refl) as (-> & (t4 & T4) & _ & D4).
  rewrite T3 in T4, D4. rewrite D3 in D4. simpl in T4, D4.
  intro H. injection H as <-.
  rewrite Et, T1, T2 in D4. unfold produces_exts in D4. simpl in D4.
  split; [rewrite T4; reflexivity|]. split; [exact D4|].
  unfold links_dict_wf. rewrite D4, T4. simpl. split.
  - repeat constructor; simpl; intuition discriminate.
  - intros k ls [E|[E|[E|[]]]]; injection E as <- <-;
      (split; [lia|]); (split; [discriminate|]);
      intros l Hl; simpl in Hl; intuition (subst; simpl; lia).
Qed.

Lemma GW_Workflow_dependencies_witness :
  length (_tasks (snd (@GW_Workflow_init example_api
                         (fun node ext => "task/out_" ++ ext)%string
                         {| _tasks := []; _links_dict := []; log := [] |}
                         (StrategyObj "scf") (StrategyObj "nscf")
                         (StrategyObj "scr") (StrategyObj "sigma")))) = 4%nat.
Proof.
  refine (proj1 (@GW_Workflow_dependencies example_api
                   (fun node ext => "task/out_" ++ ext)%string
                   {| _tasks := []; _links_dict := []; log := [] |} _
                   (StrategyObj "scf") (StrategyObj "nscf")
                   (StrategyObj "scr") (StrategyObj "sigma") eq_refl eq_refl _)).
  reflexivity.
Defined.

(** ** IterativeWork.submit_tasks: the generator and the budget *)

(** [next_task] and the generator: either the generator is used up and
    nothing changed, or one item was taken from it. *)
Lemma next_task_generator {api : Collaborators} (iw iw1 : IterativeWork)
    (r : result Task) :
  next_task iw = (r, iw1) ->
  strategy_generator iw1 = strategy_generator iw /\
  (strategy_generator iw (taken iw) = None /\ r = Raise StopIteration /\
   taken iw1 = taken iw /\ ntasks iw1 = ntasks iw
   \/
   strategy_generator iw (taken iw) <> None /\ taken iw1 = S (taken iw) /\
   (ntasks iw1 <= S (ntasks iw))%nat).
Proof.
  unfold next_task, generator_next, ntasks.
  destruct (strategy_generator iw (taken iw)) as [obj|] eqn:G.
  - unfold register. simpl.
    destruct (if is_Strategy obj then _ else _) as [task|e]; simpl.
    + destruct (Z.of_nat (length (_tasks (work iw) ++ [task])) =? niter iw);
        intro H; injection H as <- <-; simpl; rewrite length_app; simpl;
        (split; [reflexivity|]); right;
        (split; [discriminate|]); split; [reflexivity|lia|reflexivity|lia].
    + intro H. injection H as <- <-. simpl.
      split; [reflexivity|]. right. split; [discriminate|]. split; [reflexivity|lia].
  - intro H. injection H as <- <-. split; [reflexivity|]. left. repeat split.
Qed.

Lemma loop_body_generator {api : Collaborators} (iw iw1 : IterativeWork)
    (c : LoopExit) :
  loop_body iw = (c, iw1) ->
  strategy_generator iw1 = strategy_generator iw /\
  (taken iw <= taken iw1 <= S (taken iw))%nat /\
  (ntasks iw1 <= ntasks iw + (taken iw1 - taken iw))%nat /\
  (taken iw1 = S (taken iw) -> strategy_generator iw (taken iw) <> None) /\
  (c = Continue -> taken iw1 = S (taken iw)).
Proof.
  unfold loop_body.
  destruct ((max_niter iw <? niter iw) && (0 <? max_niter iw)).
  { intro H. injection H as <- <-.
    split; [reflexivity|]. split; [lia|]. split; [lia|].
    split; [intro; lia|discriminate]. }
  destruct (next_task iw) as [r iw2] eqn:En.
  destruct (next_task_generator _ _ _ En) as (G2 & Hcase).
  assert (Hshape :
    strategy_generator iw2 = strategy_generator iw /\
    (taken iw <= taken iw2 <= S (taken iw))%nat /\
    (ntasks iw2 <= ntasks iw + (taken iw2 - taken iw))%nat /\
    (taken iw2 = S (taken iw) -> strategy_generator iw (taken iw) <> None) /\
    ((exists task, r = Ok task) -> taken iw2 = S (taken iw))).
  { split; [exact G2|].
    destruct Hcase as [(Hn & -> & Ht & Hk)|(Hs & Ht & Hk)].
    - split; [lia|]. split; [lia|]. split; [intro; lia|].
      intros (task & Hc). discriminate.
    - split; [lia|]. split; [lia|]. split; [intros _; exact Hs|intros _; exact Ht]. }
  destruct Hshape as (S1 & S2 & S3 & S4 & S5).
  destruct r as [task|e].
  - specialize (S5 (ex_intro _ task eq_refl)).
    destruct (start_and_wait iw2 task) as [r3 iw3] eqn:Es.
    assert (Hsw : strategy_generator iw3 = strategy_generator iw2 /\
                  taken iw3 = taken iw2 /\ ntasks iw3 = ntasks iw2).
    { unfold start_and_wait in Es.
      destruct (Task_start_wait task); injection Es as <- <-; unfold ntasks; simpl;
        rewrite ?update_at_length; repeat split. }
    destruct Hsw as (W1 & W2 & W3).
    destruct r3 as [u|e].
    + destruct (exit_iteration (_tasks (work iw3))) as [[|]|e];
        intro H; injection H as <- <-; unfold ntasks in *; simpl;
        (split; [congruence|]); (split; [lia|]); (split; [lia|]);
        (split; [intro; apply S4; lia|]); try discriminate; intros _; lia.
    + intro H. injection H as <- <-.
      split; [congruence|]. split; [lia|]. split; [lia|].
      split; [intro; apply S4; lia|discriminate].
  - destruct e; intro H; injection H as <- <-;
      (split; [exact S1|]); (split; [exact S2|]); (split; [exact S3|]);
      (split; [exact S4|discriminate]).
Qed.

(** X28.  With a generator that ends (it has nothing at position [L]),
    the loop of [submit_tasks] is left within [L - taken + 1] passes,
    whatever [max_niter] is, a value [<= 0] included and whatever the
    tasks and the hook do; no more than [L - taken] strategies are taken
    and tasks registered. *)
Theorem submit_loop_finite_generator {api : Collaborators} (fuel : nat) :
  forall (iw : IterativeWork) (L : nat),
    (taken iw <= L)%nat -> strategy_generator iw L = None ->
    (L - taken iw < fuel)%nat ->
    exists r iw',
      submit_loop fuel iw = Some (r, iw') /\
      (taken iw' <= L)%nat /\
      (ntasks iw' <= ntasks iw + (L - taken iw))%nat.
Proof.
  induction fuel as [|fuel IH]; intros iw L Ht HL Hfuel; [lia|].
  simpl. destruct (loop_body iw) as [c iw1] eqn:Eb.
  destruct (loop_body_generator _ _ _ Eb) as (G & T & K & Hsome & Hcont).
  assert (Hin : (taken iw1 <= L)%nat).
  { destruct (Nat.eq_dec (taken iw1) (S (taken iw))) as [E|E]; [|lia].
    destruct (Nat.eq_dec (taken iw) L) as [E2|E2]; [|lia].
    exfalso. apply (Hsome E). rewrite E2. exact HL. }
  destruct c as [| |e].
  - exists (Ok tt), iw1. split; [reflexivity|]. split; [exact Hin|lia].
  - specialize (Hcont eq_refl).
    destruct (IH iw1 L Hin) as (r & iw' & E & T' & K'); [rewrite G; exact HL|lia|].
    exists r, iw'. split; [exact E|]. split; [exact T'|lia].
  - exists (Raise e), iw1. split; [reflexivity|]. split; [exact Hin|lia].
Qed.

Lemma submit_loop_finite_generator_witness :
  let iw0 :=
    {| work := {| _tasks := []; _links_dict := []; log := [] |};
       strategy_generator := fun n => if (n <? 2)%nat then Some (StrategyObj "scf")
                                      else None;
       taken := 0; max_niter := 0; niter := 1 |} in
  exists r iw',
    @submit_loop example_api 3 iw0 = Some (r, iw') /\
    (taken iw' <= 2)%nat /\ (ntasks iw' <= ntasks iw0 + (2 - taken iw0))%nat.
Proof.
  intro iw0.
  apply (@submit_loop_finite_generator example_api 3 iw0 2%nat);
    [simpl; lia|reflexivity|simpl; lia].
Defined.

Section EverythingSucceeds.

Context {api : Collaborators}.

(** The constructors take what the generator [gen] yields, the runs do
    not fail and the hook never asks to stop. *)
Variable gen : nat -> option PyObj.
Hypothesis constructors_succeed : forall n obj id ls,
  gen n = Some obj ->
  exists task,
    (if is_Strategy obj then task_factory obj id ls
     else AbinitTask_from_input obj id ls) = Ok task.
Hypothesis start_succeeds : forall task, exists done, Task_start_wait task = Ok done.
Hypothesis never_exit : forall ts, exit_iteration ts = Ok false.

(** One pass that goes all the way round. *)
Lemma loop_body_continues (iw : IterativeWork) :
  strategy_generator iw = gen ->
  strategy_generator iw (taken iw) <> None ->
  Z.of_nat (ntasks iw) + 1 = niter iw ->
  (max_niter iw < niter iw -> 0 < max_niter iw -> False) ->
  exists iw1,
    loop_body iw = (Continue, iw1) /\
    strategy_generator iw1 = strategy_generator iw /\
    max_niter iw1 = max_niter iw /\
    ntasks iw1 = S (ntasks iw) /\ taken iw1 = S (taken iw) /\
    niter iw1 = niter iw + 1.
Proof.
  intros Hg Hgen Hn Hbudget. unfold loop_body.
  destruct ((max_niter iw <? niter iw) && (0 <? max_niter iw)) eqn:Eb.
  { apply andb_true_iff in Eb. destruct Eb as [E1 E2].
    apply Z.ltb_lt in E1, E2. exfalso. exact (Hbudget E1 E2). }
  unfold next_task, generator_next.
  destruct (strategy_generator iw (taken iw)) as [obj|] eqn:Eg; [|congruence].
  assert (Eg' : gen (taken iw) = Some obj) by (rewrite <- Hg; exact Eg).
  unfold register. cbn [work with_taken].
  destruct (constructors_succeed (taken iw) obj
              (Z.of_nat (length (_tasks (work iw)))) [] Eg') as (task & ->).
  cbn [with_work with_taken _tasks niter work].
  assert (Ea : (Z.of_nat (length (_tasks (work iw) ++ [task])) =? niter iw) = true).
  { apply Z.eqb_eq. rewrite length_app. unfold ntasks in Hn. simpl. lia. }
  rewrite Ea.
  rewrite (py_getitem_last (_tasks (work iw) ++ [task]) task)
    by (destruct (_tasks (work iw)); discriminate).
  unfold start_and_wait.
  destruct (start_succeeds (last (_tasks (work iw) ++ [task]) task)) as (done & ->).
  cbn [with_work with_tasks work _tasks].
  rewrite never_exit.
  eexists. split; [reflexivity|]. unfold ntasks. simpl.
  rewrite update_at_length, length_app. simpl.
  repeat split; lia.
Qed.

Lemma submit_loop_exact (k : nat) : forall iw : IterativeWork,
  strategy_generator iw = gen ->
  (forall n, strategy_generator iw n <> None) ->
  0 < max_niter iw ->
  Z.of_nat (ntasks iw) + 1 = niter iw ->
  niter iw + Z.of_nat k = max_niter iw + 1 ->
  exists iw',
    submit_loop (S k) iw = Some (Ok tt, iw') /\
    ntasks iw' = (ntasks iw + k)%nat /\ taken iw' = (taken iw + k)%nat /\
    niter iw' = max_niter iw + 1.
Proof.
  induction k as [|k IH]; intros iw Hg Hgen Hmax Hn Hk.
  - exists iw. split; [|repeat split; lia].
    simpl. destruct (loop_body iw) as [c iw1] eqn:Eb.
    destruct (loop_body_shape _ _ _ Eb) as (_ & _ & _ & _ & Stop).
    destruct Stop as [-> ->]; [lia|exact Hmax|reflexivity].
  - destruct (loop_body_continues iw Hg (Hgen _) Hn ltac:(lia))
      as (iw1 & Eb & G & M & T & K & N).
    destruct (IH iw1) as (iw' & E & T' & K' & N');
      [rewrite G; exact Hg|intro n; rewrite G; apply Hgen|lia|lia|lia|].
    exists iw'. split; [|repeat split; lia].
    change (submit_loop (S (S k)) iw)
      with (match loop_body iw with
            | (Break, iw0) => Some (Ok tt, iw0)
            | (Propagate e, iw0) => Some (Raise e, iw0)
            | (Continue, iw0) => submit_loop (S k) iw0
            end).
    rewrite Eb. exact E.
Qed.

Lemma submit_loop_runs_on (fuel : nat) : forall iw : IterativeWork,
  strategy_generator iw = gen ->
  (forall n, strategy_generator iw n <> None) ->
  max_niter iw <= 0 ->
  Z.of_nat (ntasks iw) + 1 = niter iw ->
  submit_loop fuel iw = None.
Proof.
  induction fuel as [|fuel IH]; intros iw Hg Hgen Hmax Hn; [reflexivity|].
  destruct (loop_body_continues iw Hg (Hgen _) Hn ltac:(lia))
    as (iw1 & Eb & G & M & T & K & N).
  simpl. rewrite Eb.
  apply IH; [rewrite G; exact Hg|intro n; rewrite G; apply Hgen|lia|lia].
Qed.

End EverythingSucceeds.

(** X29.  When nothing fails (the constructors succeed on what the
    generator yields, the runs succeed, the hook never asks to stop) and
    the generator never ends, [submit_tasks]
    on a workflow without tasks uses its budget to the full: with
    [max_niter > 0] it leaves the loop after exactly [max_niter] tasks,
    with [niter = max_niter + 1]; with [max_niter <= 0] it never leaves
    the loop, whatever number of passes is allowed. *)
Theorem submit_tasks_uses_budget {api : Collaborators} (iw : IterativeWork) :
  (forall n obj id ls,
     strategy_generator iw n = Some obj ->
     exists task,
       (if is_Strategy obj then task_factory obj id ls
        else AbinitTask_from_input obj id ls) = Ok task) ->
  (forall task, exists done, Task_start_wait task = Ok done) ->
  (forall ts, exit_iteration ts = Ok false) ->
  (forall n, strategy_generator iw n <> None) ->
  ntasks iw = 0%nat ->
  (0 < max_niter iw ->
   exists iw',
     submit_tasks (S (Z.to_nat (max_niter iw))) iw = Some (Ok tt, iw') /\
     Z.of_nat (ntasks iw') = max_niter iw /\
     Z.of_nat (taken iw') = Z.of_nat (taken iw) + max_niter iw /\
     niter iw' = max_niter iw + 1) /\
  (max_niter iw <= 0 -> forall fuel, submit_tasks fuel iw = None).
Proof.
  intros Hc Hs He Hgen Hn. split.
  - intro Hmax.
    destruct (submit_loop_exact (strategy_generator iw) Hc Hs He
                (Z.to_nat (max_niter iw)) (with_niter iw 1))
      as (iw' & E & T & K & N).
    + reflexivity.
    + exact Hgen.
    + exact Hmax.
    + unfold ntasks in *. simpl. lia.
    + cbn [niter max_niter with_niter]. lia.
    + exists iw'. split; [exact E|].
      unfold ntasks in *. cbn [niter max_niter with_niter work taken] in *.
      repeat split; lia.
  - intros Hmax fuel. apply (submit_loop_runs_on (strategy_generator iw) Hc Hs He).
    + reflexivity.
    + exact Hgen.
    + exact Hmax.
    + unfold ntasks in *. simpl. lia.
Qed.

Lemma submit_tasks_uses_budget_witness :
  exists iw',
    @submit_tasks example_api 4 iterative_example = Some (Ok tt, iw') /\
    Z.of_nat (ntasks iw') = 3.
Proof.
  destruct (proj1 (@submit_tasks_uses_budget example_api iterative_example
                     ltac:(intros n obj id ls H; injection H as <-;
                           eexists; reflexivity)
                     ltac:(intro task; eexists; reflexivity)
                     ltac:(intro ts; reflexivity)
                     ltac:(intro n; discriminate)
                     eq_refl) ltac:(simpl; lia))
    as (iw' & E & T & _).
  exists iw'. split; [exact E|exact T].
Defined.

(** X30.  [submit_tasks] on an iterative workflow that already holds
    tasks: the first pass takes a strategy, registers one more task (when
    the constructor succeeds) and then fails the assertion
    [len(self) == self.niter], since [niter] is 1; the call ends with
    AssertionError and the new task stays registered. *)
Theorem submit_tasks_with_tasks {api : Collaborators} (iw : IterativeWork)
    (fuel : nat) (obj : PyObj) (task : Task) :
  (1 <= ntasks iw)%nat ->
  strategy_generator iw (taken iw) = Some obj ->
  (if is_Strategy obj
   then task_factory obj (Z.of_nat (ntasks iw)) []
   else AbinitTask_from_input obj (Z.of_nat (ntasks iw)) []) = Ok task ->
  exists iw',
    submit_tasks (S fuel) iw = Some (Raise AssertionError, iw') /\
    _tasks (work iw') = _tasks (work iw) ++ [task] /\
    taken iw' = S (taken iw).
Proof.
  intros Hn Hgen Hmade. unfold submit_tasks. simpl submit_loop.
  unfold loop_body. cbn [max_niter niter with_niter].
  assert (Eb : (max_niter iw <? 1) && (0 <? max_niter iw) = false).
  { destruct (max_niter iw <? 1) eqn:E1; [|reflexivity].
    destruct (0 <? max_niter iw) eqn:E2; [|reflexivity].
    apply Z.ltb_lt in E1, E2. lia. }
  rewrite Eb. unfold next_task, generator_next.
  cbn [strategy_generator taken with_niter]. rewrite Hgen.
  unfold register. cbn [work with_taken with_niter].
  unfold ntasks in *. rewrite Hmade.
  cbn [with_work with_taken with_niter _tasks niter work].
  assert (Ea : (Z.of_nat (length (_tasks (work iw) ++ [task])) =? 1) = false).
  { apply Z.eqb_neq. rewrite length_app. cbn [length]. lia. }
  rewrite Ea. eexists. split; [reflexivity|]. split; reflexivity.
Qed.

Lemma submit_tasks_with_tasks_witness :
  exists iw',
    @submit_tasks example_api 1
      {| work := workflow_example;
         strategy_generator := fun _ => Some (StrategyObj "scf");
         taken := 0; max_niter := 25; niter := 0 |}
    = Some (Raise AssertionError, iw') /\
    length (_tasks (work iw')) = 4%nat.
Proof.
  destruct (@submit_tasks_with_tasks example_api
              {| work := workflow_example;
                 strategy_generator := fun _ => Some (StrategyObj "scf");
                 taken := 0; max_niter := 25; niter := 0 |}
              0 (StrategyObj "scf")
              {| task_id := 3; status := 0; tot_ncpus := 1; links := [] |}
              ltac:(unfold ntasks; simpl; lia) eq_refl eq_refl) as (iw' & E & T & _).
  exists iw'. split; [exact E|]. rewrite T. reflexivity.
Defined.
